(** * Governance-economics engine: position limits, reputation decay, cartels

    A shallow embedding of the numeric core of the simulation scripts
    [sybil_simulation.py], [prediction_accuracy.py] and [cartel_analysis.py].

    Numbers: Python integers are [Z]; Python floats are read as exact
    rationals [Q] (no rounding), so that every definition below still runs.
    Equality of computed rationals is [Qeq] (written [==]).  Python exceptions
    are values of [exn] carried by the [result] type. *)

From Stdlib Require Import ZArith QArith Qminmax Lqa Lia List Bool Sorted.
From Stdlib Require String DecimalString.
Import ListNotations.

Local Open Scope Q_scope.

(** ** Python helpers *)

Inductive exn : Type :=
| ZeroDivisionError
| IndexError
| TypeError.

Inductive result (A : Type) : Type :=
| Ok (a : A)
| Err (e : exn).

Arguments Ok {A} a.
Arguments Err {A} e.

Definition bind {A B : Type} (r : result A) (k : A -> result B) : result B :=
  match r with
  | Ok a => k a
  | Err e => Err e
  end.

Notation "x <- r ;; k" := (bind r (fun x => k))
  (at level 61, r at next level, right associativity).

(** [a / b] on Python numbers: a zero divisor raises. *)
Definition pydiv (a b : Q) : result Q :=
  if Qeq_bool b 0 then Err ZeroDivisionError else Ok (a / b).

(** [xs[i]] for a non-negative index [i]. *)
Definition getitem {A : Type} (xs : list A) (i : nat) : result A :=
  match nth_error xs i with
  | Some a => Ok a
  | None => Err IndexError
  end.

(** The builtin [sum] over numbers, starting at 0 and adding left to right. *)
Definition sum (xs : list Q) : Q := fold_left Qplus xs 0.

(** [[f(x) for x in xs]] when [f] may raise. *)
Fixpoint mapM {A B : Type} (f : A -> result B) (xs : list A) : result (list B) :=
  match xs with
  | [] => Ok []
  | x :: xs' => y <- f x ;; ys <- mapM f xs' ;; Ok (y :: ys)
  end.

(** [a >= b] and [a < b], [a > b], [a <= b] as Python booleans. *)
Definition geb (a b : Q) : bool := Qle_bool b a.
Definition ltb (a b : Q) : bool := negb (Qle_bool b a).
Definition gtb (a b : Q) : bool := negb (Qle_bool a b).

(** ** sybil_simulation.py *)

Module SybilSimulation.

Record User : Type := mkUser {
  address : String.string;
  capital : Q;
  reputation : Q;
  accuracy : Q;
  markets_participated : Z
}.

(** The attributes of a [ReputationWeightedMarket] instance that the limit
    computation reads. *)
Record ReputationWeightedMarket : Type := mkMarket {
  total_liquidity : Q;
  creation_block : Z;
  current_block : Z
}.

Definition INITIAL_REP : Q := 100.
Definition MIN_REP_FOR_GENESIS : Q := 1000.
Definition GENESIS_PHASE_BLOCKS : Z := 100.
Definition EARLY_GROWTH_BLOCKS : Z := 500.

Definition TIER_5_REP : Q := 10000.
Definition TIER_5_ACC : Q := 0.70.
Definition TIER_5_LIMIT : Q := 0.05.
Definition TIER_4_REP : Q := 5000.
Definition TIER_4_ACC : Q := 0.65.
Definition TIER_4_LIMIT : Q := 0.04.
Definition TIER_3_REP : Q := 1000.
Definition TIER_3_ACC : Q := 0.60.
Definition TIER_3_LIMIT : Q := 0.03.
Definition TIER_2_REP : Q := 500.
Definition TIER_2_ACC : Q := 0.55.
Definition TIER_2_LIMIT : Q := 0.02.
Definition TIER_1_LIMIT : Q := 0.01.

(** The local [blocks_since_creation] of the two methods below. *)
Definition blocks_since_creation (self : ReputationWeightedMarket) : Z :=
  (current_block self - creation_block self)%Z.

Definition can_participate_in_genesis
    (self : ReputationWeightedMarket) (user : User) : bool :=
  if (blocks_since_creation self <? GENESIS_PHASE_BLOCKS)%Z
  then geb (reputation user) MIN_REP_FOR_GENESIS
  else true.

Definition calculate_position_limit
    (self : ReputationWeightedMarket) (user : User) : Q :=
  if (blocks_since_creation self <? GENESIS_PHASE_BLOCKS)%Z then
    if negb (can_participate_in_genesis self user) then 0
    else
      let rep_factor := Qmin (reputation user / MIN_REP_FOR_GENESIS) 10 in
      let min_liquidity := 1000 in
      let max_genesis := (min_liquidity * 0.20 * rep_factor) / 10 in
      Qmin max_genesis (total_liquidity self * 0.20)
  else if (blocks_since_creation self <? EARLY_GROWTH_BLOCKS)%Z then
    let block_progress := (blocks_since_creation self - GENESIS_PHASE_BLOCKS)%Z in
    let phase_length := (EARLY_GROWTH_BLOCKS - GENESIS_PHASE_BLOCKS)%Z in
    let percentage_limit :=
      0.30 + (inject_Z block_progress / inject_Z phase_length) * 0.20 in
    total_liquidity self * percentage_limit
  else
    let rep := reputation user in
    let acc := accuracy user in
    let base_limit :=
      if geb rep TIER_5_REP && geb acc TIER_5_ACC then TIER_5_LIMIT
      else if geb rep TIER_4_REP && geb acc TIER_4_ACC then TIER_4_LIMIT
      else if geb rep TIER_3_REP && geb acc TIER_3_ACC then TIER_3_LIMIT
      else if geb rep TIER_2_REP && geb acc TIER_2_ACC then TIER_2_LIMIT
      else TIER_1_LIMIT in
    total_liquidity self * base_limit.

(** The dictionary returned by [simulate_reputation_decay_resistance]. *)
Record DecayReport : Type := mkDecayReport {
  months_inactive : Z;
  initial_reputation : Q;
  decayed_reputation : Q;
  decay_amount : Q;
  decay_percentage : Q;
  remaining_percentage : Q
}.

Definition DECAY_RATE : Q := 0.01.
Definition DECAY_PERIOD_DAYS : Z := 30.
Definition MIN_ACTIVITY_THRESHOLD_DAYS : Z := 90.
Definition MIN_PROTECTION_RATE : Q := 0.25.

(** The locals [inactive_days], [decay_periods] and [total_decay_rate] of the
    decaying branch, as functions of the argument [months]. *)
Definition inactive_days (months : Z) : Z :=
  (months * 30 - MIN_ACTIVITY_THRESHOLD_DAYS)%Z.

Definition decay_periods (months : Z) : Q :=
  inject_Z (inactive_days months) / inject_Z DECAY_PERIOD_DAYS.

Definition total_decay_rate (months : Z) : Q :=
  Qmin (DECAY_RATE * decay_periods months) (1 - MIN_PROTECTION_RATE).

Definition simulate_reputation_decay_resistance
    (initial_rep : Q) (months : Z) : DecayReport :=
  let '(remaining_rep, amount) :=
    if (months * 30 <=? MIN_ACTIVITY_THRESHOLD_DAYS)%Z then (initial_rep, 0)
    else
      let amount := initial_rep * total_decay_rate months in
      (Qmax (initial_rep - amount) (initial_rep * MIN_PROTECTION_RATE), amount) in
  {| months_inactive := months;
     initial_reputation := initial_rep;
     decayed_reputation := remaining_rep;
     decay_amount := amount;
     decay_percentage :=
       if gtb initial_rep 0 then amount / initial_rep * 100 else 0;
     remaining_percentage :=
       if gtb initial_rep 0 then remaining_rep / initial_rep * 100 else 0 |}.

(** The ['decayed_reputation'] entry of the report, the local
    [remaining_rep]. *)
Definition remaining_rep (initial_rep : Q) (months : Z) : Q :=
  decayed_reputation (simulate_reputation_decay_resistance initial_rep months).

End SybilSimulation.

(** ** prediction_accuracy.py *)

Module PredictionAccuracy.

Definition TIER_5_REP : Q := 10000.
Definition TIER_5_ACC : Q := 0.70.
Definition TIER_5_LIMIT : Q := 0.05.
Definition TIER_4_REP : Q := 5000.
Definition TIER_4_ACC : Q := 0.65.
Definition TIER_4_LIMIT : Q := 0.04.
Definition TIER_3_REP : Q := 1000.
Definition TIER_3_ACC : Q := 0.60.
Definition TIER_3_LIMIT : Q := 0.03.
Definition TIER_2_REP : Q := 500.
Definition TIER_2_ACC : Q := 0.55.
Definition TIER_2_LIMIT : Q := 0.02.
Definition TIER_1_LIMIT : Q := 0.01.

(** [ReputationWeightedMarket.calculate_position_limit]: the tier fraction. *)
Definition calculate_position_limit (reputation accuracy : Q) : Q :=
  if geb reputation TIER_5_REP && geb accuracy TIER_5_ACC then TIER_5_LIMIT
  else if geb reputation TIER_4_REP && geb accuracy TIER_4_ACC then TIER_4_LIMIT
  else if geb reputation TIER_3_REP && geb accuracy TIER_3_ACC then TIER_3_LIMIT
  else if geb reputation TIER_2_REP && geb accuracy TIER_2_ACC then TIER_2_LIMIT
  else TIER_1_LIMIT.

End PredictionAccuracy.

(** ** cartel_analysis.py *)

Module CartelAnalysis.

(** [range(n)] and [range(lo, hi)]. *)
Definition range (n : nat) : list nat := seq 0 n.
Definition range2 (lo hi : nat) : list nat := seq lo (hi - lo).

(** [itertools.combinations(xs, k)], in its lexicographic order. *)
Fixpoint combinations {A : Type} (xs : list A) (k : nat) : list (list A) :=
  match k with
  | O => [[]]
  | S k' =>
      match xs with
      | [] => []
      | x :: xs' => map (cons x) (combinations xs' k') ++ combinations xs' k
      end
  end.

Record LegislatorCartel : Type := mkCartel {
  n : nat;
  scores : list Q;
  reputations : list Q;
  market_value : Q
}.

Definition OVERRIDE_THRESHOLD : Q := 0.6666.
Definition MIN_LEGISLATORS : nat := 7.
Definition MAX_LEGISLATORS : nat := 21.
Definition TERM_LENGTH_WEEKS : Z := 12.
Definition SLASH_PENALTY : Q := 0.10.

(** The dictionary returned by [calculate_cartel_power]. *)
Record PowerData : Type := mkPower {
  cartel_size : nat;
  voting_power : Q;
  can_override : bool;
  score_share : Q;
  rep_share : Q
}.

Definition calculate_cartel_power
    (self : LegislatorCartel) (cartel_members : list nat) : result PowerData :=
  cartel_scores <- mapM (getitem (scores self)) cartel_members ;;
  let cartel_score_sum := sum cartel_scores in
  cartel_reps <- mapM (getitem (reputations self)) cartel_members ;;
  let cartel_rep_sum := sum cartel_reps in
  let total_score_sum := sum (scores self) in
  let total_rep_sum := sum (reputations self) in
  score_part <- pydiv (0.6 * cartel_score_sum) total_score_sum ;;
  rep_part <- pydiv (0.4 * cartel_rep_sum) total_rep_sum ;;
  let cartel_power := score_part + rep_part in
  score_share_v <- pydiv cartel_score_sum total_score_sum ;;
  rep_share_v <- pydiv cartel_rep_sum total_rep_sum ;;
  Ok {| cartel_size := length cartel_members;
        voting_power := cartel_power;
        can_override := geb cartel_power OVERRIDE_THRESHOLD;
        score_share := score_share_v;
        rep_share := rep_share_v |}.

(** The per-member cost computed in the loop body of [calculate_attack_cost]. *)
Definition member_cost
    (self : LegislatorCartel) (cartel_members : list nat) (member : nat)
    : result Q :=
  let expected_earnings :=
    market_value self * 0.025 * inject_Z TERM_LENGTH_WEEKS in
  rep_value <- getitem (reputations self) member ;;
  let rep_risk := rep_value * SLASH_PENALTY * 0.30 in
  let coord_cost := inject_Z (Z.of_nat (length cartel_members)) * 0.1 in
  Ok (expected_earnings + rep_risk + coord_cost).

Definition calculate_attack_cost
    (self : LegislatorCartel) (cartel_members : list nat) : result Q :=
  costs <- mapM (member_cost self cartel_members) cartel_members ;;
  let base_cost := sum costs in
  let overhead :=
    base_cost * inject_Z (Z.of_nat (length cartel_members) - 1) * 0.05 in
  Ok (base_cost + overhead).

(** *** The linear program and its solver

    [find_minimum_cartel] hands a 0/1 program to PuLP: one binary variable
    per legislator, a cost per variable in the objective, and one [>=]
    constraint whose coefficient for [x_i] is the sum of the two [lpSum]
    terms that mention it.  A product [coefficient * x_i] with a zero
    coefficient is an empty expression in PuLP, so a variable enters the
    program only if its cost, its score term or its reputation term is not
    zero; [registered] records which variables do. *)
Record LpProblem : Type := mkProblem {
  objective : list Q;
  constraint_lhs : list Q;
  constraint_rhs : Q;
  registered : list bool
}.

(** Whether [coefficient * x_i] mentions [x_i]. *)
Definition nonzero (q : Q) : bool := negb (Qeq_bool q 0).

(** The variables that the objective or one of the two sums mentions. *)
Definition mentioned (costs score_terms rep_terms : list Q) : list bool :=
  map (fun cst => nonzero (fst cst) || nonzero (fst (snd cst))
                  || nonzero (snd (snd cst)))
      (combine costs (combine score_terms rep_terms)).

Inductive LpStatus : Type :=
| LpStatusOptimal
| LpStatusInfeasible
| LpStatusNotSolved.

(** What [prob.solve] leaves behind: a status and the [varValue] of each
    variable ([None] when the solver assigned nothing). *)
Record LpSolution : Type := mkSolution {
  status : LpStatus;
  varValues : list (option Q)
}.

Definition Solver : Type := LpProblem -> LpSolution.

(** [x[i].varValue]. *)
Definition varValue (sol : LpSolution) (i : nat) : option Q :=
  nth i (varValues sol) None.

(** [value(prob.objective)]: the coefficients weighted by the values of the
    variables that the objective mentions, [None] as soon as one of them has
    no value. *)
Fixpoint value (coeffs : list Q) (vals : list (option Q)) : option Q :=
  match coeffs with
  | [] => Some 0
  | c :: coeffs' =>
      if nonzero c then
        match hd None vals, value coeffs' (tl vals) with
        | Some v, Some s => Some (v * c + s)
        | _, _ => None
        end
      else value coeffs' (tl vals)
  end.

(** The cost coefficient of legislator [i] in the objective. *)
Definition lp_cost (self : LegislatorCartel) (i : nat) : result Q :=
  let expected_earnings :=
    market_value self * 0.025 * inject_Z TERM_LENGTH_WEEKS in
  r <- getitem (reputations self) i ;;
  let rep_risk := r * SLASH_PENALTY * 0.30 in
  Ok (expected_earnings + rep_risk).

(** The program built by [find_minimum_cartel] before the call to [solve]. *)
Definition lp_problem (self : LegislatorCartel) : result LpProblem :=
  costs <- mapM (lp_cost self) (range (n self)) ;;
  let total_score := sum (scores self) in
  let total_rep := sum (reputations self) in
  score_terms <-
    mapM (fun i => s <- getitem (scores self) i ;;
                   q <- pydiv (0.6 * s) total_score ;; Ok q)
         (range (n self)) ;;
  rep_terms <-
    mapM (fun i => r <- getitem (reputations self) i ;;
                   q <- pydiv (0.4 * r) total_rep ;; Ok q)
         (range (n self)) ;;
  Ok {| objective := costs;
        constraint_lhs :=
          map (fun st => fst st + snd st) (combine score_terms rep_terms);
        constraint_rhs := OVERRIDE_THRESHOLD;
        registered := mentioned costs score_terms rep_terms |}.

(** [[i for i in range(n) if x[i].varValue > 0.5]]; comparing [None] with a
    number raises. *)
Fixpoint select_members (sol : LpSolution) (idx : list nat) : result (list nat) :=
  match idx with
  | [] => Ok []
  | i :: idx' =>
      match varValue sol i with
      | None => Err TypeError
      | Some v =>
          rest <- select_members sol idx' ;;
          Ok (if gtb v 0.5 then i :: rest else rest)
      end
  end.

(** The dictionary returned by [find_minimum_cartel]. *)
Record MinimumCartel : Type := mkMinimumCartel {
  cartel_members : list nat;
  min_cartel_size : nat;
  total_cost : option Q;
  power : PowerData
}.

Definition find_minimum_cartel
    (solve : Solver) (self : LegislatorCartel) : result MinimumCartel :=
  prob <- lp_problem self ;;
  let sol := solve prob in
  members <- select_members sol (range (n self)) ;;
  pd <- calculate_cartel_power self members ;;
  Ok {| cartel_members := members;
        min_cartel_size := length members;
        total_cost := value (objective prob) (varValues sol);
        power := pd |}.

(** One entry of the list returned by [brute_force_cartels]. *)
Record CartelEntry : Type := mkEntry {
  size : nat;
  members : list nat;
  cost : Q;
  entry_power : Q
}.

(** The body of the inner loop: the entry appended for [cartel], if any. *)
Definition brute_force_entry
    (self : LegislatorCartel) (cartel : list nat) : result (option CartelEntry) :=
  power_data <- calculate_cartel_power self cartel ;;
  if can_override power_data then
    c <- calculate_attack_cost self cartel ;;
    Ok (Some {| size := length cartel;
                members := cartel;
                cost := c;
                entry_power := voting_power power_data |})
  else Ok None.

(** [sorted(results, key=lambda x: x['cost'])]: a stable sort by cost. *)
Fixpoint insert_by_cost (e : CartelEntry) (es : list CartelEntry)
    : list CartelEntry :=
  match es with
  | [] => [e]
  | e' :: es' =>
      if Qle_bool (cost e) (cost e') then e :: e' :: es'
      else e' :: insert_by_cost e es'
  end.

Definition sorted_by_cost (es : list CartelEntry) : list CartelEntry :=
  fold_right insert_by_cost [] es.

(** The (size, cartel) pairs visited by the two nested loops, in order. *)
Definition candidate_cartels (self : LegislatorCartel) : list (list nat) :=
  flat_map (fun size => combinations (range (n self)) size)
           (range2 MIN_LEGISLATORS (n self + 1)).

Fixpoint keep_some {A : Type} (xs : list (option A)) : list A :=
  match xs with
  | [] => []
  | Some a :: xs' => a :: keep_some xs'
  | None :: xs' => keep_some xs'
  end.

Definition brute_force_cartels
    (self : LegislatorCartel) : result (list CartelEntry) :=
  entries <- mapM (brute_force_entry self) (candidate_cartels self) ;;
  Ok (sorted_by_cost (keep_some entries)).

(** *** A reference solver

    An exact 0/1 solver by exhaustion: among all assignments that satisfy the
    constraint, the first one of least objective value.  Like the real
    solver it leaves a value only in the variables of the program; a variable
    that is not registered keeps [varValue] [None]. *)
Definition assignment_values (m : list bool) : list (option Q) :=
  map (fun b : bool => Some (if b then 1 else 0)) m.

(** The values the variables hold after a solve that found [m]. *)
Definition solution_values (reg m : list bool) : list (option Q) :=
  map (fun rb : bool * bool =>
         if fst rb then Some (if snd rb then 1 else 0) else None)
      (combine reg m).

Fixpoint dot (coeffs : list Q) (m : list bool) : Q :=
  match coeffs, m with
  | c :: coeffs', b :: m' => (if b then c else 0) + dot coeffs' m'
  | _, _ => 0
  end.

Definition feasible (p : LpProblem) (m : list bool) : bool :=
  Qle_bool (constraint_rhs p) (dot (constraint_lhs p) m).

Fixpoint all_assignments (k : nat) : list (list bool) :=
  match k with
  | O => [[]]
  | S k' =>
      map (cons false) (all_assignments k') ++
      map (cons true) (all_assignments k')
  end.

Fixpoint least_cost (coeffs : list Q) (ms : list (list bool))
    : option (list bool) :=
  match ms with
  | [] => None
  | m :: ms' =>
      match least_cost coeffs ms' with
      | None => Some m
      | Some m' => if Qle_bool (dot coeffs m) (dot coeffs m') then Some m
                   else Some m'
      end
  end.

Definition exhaustive_solve : Solver := fun p =>
  let k := length (objective p) in
  match least_cost (objective p) (filter (feasible p) (all_assignments k)) with
  | Some m => {| status := LpStatusOptimal;
                 varValues := solution_values (registered p) m |}
  | None => {| status := LpStatusInfeasible; varValues := repeat None k |}
  end.

(** What it means for a solver to be exact on 0/1 programs: when some 0/1
    assignment meets the constraint it reports [Optimal] and leaves, in the
    registered variables, a 0/1 assignment that meets the constraint at
    least cost (the other variables keep [None]); otherwise it reports
    [Infeasible]. *)
Definition exact_solver (solve : Solver) : Prop :=
  forall p : LpProblem,
    length (constraint_lhs p) = length (objective p) ->
    length (registered p) = length (objective p) ->
    (forall m, length m = length (objective p) -> feasible p m = true ->
       status (solve p) = LpStatusOptimal /\
       exists m0,
         length m0 = length (objective p) /\
         varValues (solve p) = solution_values (registered p) m0 /\
         feasible p m0 = true /\
         forall m', length m' = length (objective p) ->
                    feasible p m' = true ->
                    dot (objective p) m0 <= dot (objective p) m') /\
    ((forall m, length m = length (objective p) -> feasible p m = false) ->
       status (solve p) = LpStatusInfeasible).

(** *** Assignments as coalitions

    The legislators an assignment [m] selects, numbered from [start], and the
    entries of a list it selects. *)
Fixpoint mask_members (m : list bool) (start : nat) : list nat :=
  match m with
  | [] => []
  | b :: m' =>
      if b then start :: mask_members m' (S start)
      else mask_members m' (S start)
  end.

Fixpoint selected {A : Type} (xs : list A) (m : list bool) : list A :=
  match xs, m with
  | x :: xs', b :: m' => if b then x :: selected xs' m' else selected xs' m'
  | _, _ => []
  end.

(** The scenario of seven equal legislators. *)
Definition uniform7 (mv : Q) : LegislatorCartel :=
  {| n := 7;
     scores := repeat 100 7;
     reputations := repeat 100 7;
     market_value := mv |}.

(** Eight unequal legislators. *)
Definition sample8 : LegislatorCartel :=
  {| n := 8;
     scores := [9000; 8500; 9500; 7000; 6000; 8000; 9900; 5000];
     reputations := [12000; 8000; 30000; 6000; 5000; 9000; 20000; 7000];
     market_value := 1000 |}.

(** Seven legislators on a market without value, the last of them without
    score and without reputation. *)
Definition idle_seventh : LegislatorCartel :=
  {| n := 7;
     scores := [1; 1; 1; 1; 1; 1; 0];
     reputations := [1; 1; 1; 1; 1; 1; 0];
     market_value := 0 |}.

(** A population without legislators. *)
Definition empty_population (mv : Q) : LegislatorCartel :=
  {| n := 0; scores := []; reputations := []; market_value := mv |}.

End CartelAnalysis.

(** ** String literals of the scripts *)

Module Literals.

Import String.StringSyntax.
Local Open Scope string_scope.

Definition token_weighted : String.string := "Token-Weighted".
Definition reputation_weighted : String.string := "Reputation-Weighted".
Definition sybil_prefix : String.string := "sybil_".
Definition single_tier3 : String.string := "single_tier3".
Definition single_tier5 : String.string := "single_tier5".

End Literals.

(** ** prediction_accuracy.py: the market classes *)

Module PredictionMarkets.

(** The exceptions [brier_score] can end in. *)
Inductive brier_exn : Type :=
| ValueError
| EmptyDivision.

(** [PredictionMarket.brier_score]; [EmptyDivision] is the
    [ZeroDivisionError] of dividing by [len(squared_errors)] = 0. *)
Definition brier_score (predictions outcomes : list Q) : brier_exn + Q :=
  if negb (length predictions =? length outcomes)%nat then inl ValueError
  else
    let squared_errors :=
      map (fun po => (fst po - snd po) ^ 2) (combine predictions outcomes) in
    match pydiv (sum squared_errors)
                (inject_Z (Z.of_nat (length squared_errors))) with
    | Ok q => inr q
    | Err _ => inl EmptyDivision
    end.

(** *** TokenWeightedMarket *)

Module TokenWeighted.

(** An entry of [self.trades]. *)
Record Trade : Type := mkTrade {
  outcome : Z;
  amount : Q
}.

Record TokenWeightedMarket : Type := mkMarket {
  name : String.string;
  liquidity : Q;
  trades : list Trade;
  total_yes : Q;
  total_no : Q
}.

(** [TokenWeightedMarket(liquidity)]. *)
Definition init (liquidity_ : Q) : TokenWeightedMarket :=
  {| name := Literals.token_weighted;
     liquidity := liquidity_;
     trades := [];
     total_yes := liquidity_ / 2;
     total_no := liquidity_ / 2 |}.

(** The market after [self.add_trade(outcome, amount, trader_capital)]. *)
Definition add_trade (self : TokenWeightedMarket)
    (outcome_ : Z) (amount_ trader_capital : Q) : TokenWeightedMarket :=
  {| name := name self;
     liquidity := liquidity self;
     trades := trades self ++ [{| outcome := outcome_; amount := amount_ |}];
     total_yes :=
       if (outcome_ =? 0)%Z then total_yes self + amount_ else total_yes self;
     total_no :=
       if (outcome_ =? 0)%Z then total_no self else total_no self + amount_ |}.

Definition calculate_price (self : TokenWeightedMarket) (outcome_ : Z)
    : result Q :=
  let total := total_yes self + total_no self in
  if (outcome_ =? 0)%Z then pydiv (total_yes self) total
  else pydiv (total_no self) total.

End TokenWeighted.

(** *** ReputationWeightedMarket *)

Module ReputationWeighted.

(** An entry of [self.trades]. *)
Record Trade : Type := mkTrade {
  outcome : Z;
  amount : Q;
  reputation : Q;
  accuracy : Q;
  capped : bool
}.

Record ReputationWeightedMarket : Type := mkMarket {
  name : String.string;
  liquidity : Q;
  trades : list Trade;
  total_yes : Q;
  total_no : Q
}.

(** [ReputationWeightedMarket(liquidity)]. *)
Definition init (liquidity_ : Q) : ReputationWeightedMarket :=
  {| name := Literals.reputation_weighted;
     liquidity := liquidity_;
     trades := [];
     total_yes := liquidity_ / 2;
     total_no := liquidity_ / 2 |}.

(** The market after
    [self.add_trade(outcome, amount, trader_reputation, trader_accuracy)]. *)
Definition add_trade (self : ReputationWeightedMarket)
    (outcome_ : Z) (amount_ trader_reputation trader_accuracy : Q)
    : ReputationWeightedMarket :=
  let max_position :=
    PredictionAccuracy.calculate_position_limit
      trader_reputation trader_accuracy * liquidity self in
  let effective_amount := Qmin amount_ max_position in
  {| name := name self;
     liquidity := liquidity self;
     trades := trades self ++
               [{| outcome := outcome_;
                   amount := effective_amount;
                   reputation := trader_reputation;
                   accuracy := trader_accuracy;
                   capped := ltb effective_amount amount_ |}];
     total_yes :=
       if (outcome_ =? 0)%Z then total_yes self + effective_amount
       else total_yes self;
     total_no :=
       if (outcome_ =? 0)%Z then total_no self
       else total_no self + effective_amount |}.

Definition calculate_price (self : ReputationWeightedMarket) (outcome_ : Z)
    : Q :=
  let total := total_yes self + total_no self in
  if (outcome_ =? 0)%Z then
    if gtb total 0 then total_yes self / total else 0.5
  else
    if gtb total 0 then total_no self / total else 0.5.

(** A trade as the arguments of one [add_trade] call, and a run of calls. *)
Record Order : Type := mkOrder {
  order_outcome : Z;
  order_amount : Q;
  order_reputation : Q;
  order_accuracy : Q
}.

Definition add_trades (self : ReputationWeightedMarket) (orders : list Order)
    : ReputationWeightedMarket :=
  fold_left (fun m o => add_trade m (order_outcome o) (order_amount o)
                                  (order_reputation o) (order_accuracy o))
            orders self.

End ReputationWeighted.

End PredictionMarkets.

(** ** sybil_simulation.py: the attack scenarios *)

Module SybilAttacks.

Import SybilSimulation.

(** [ReputationWeightedMarket(total_liquidity)]. *)
Definition init (total_liquidity_ : Q) : ReputationWeightedMarket :=
  {| total_liquidity := total_liquidity_;
     creation_block := 0;
     current_block := 0 |}.

(** [market.current_block = block]. *)
Definition set_current_block (market : ReputationWeightedMarket) (block : Z)
    : ReputationWeightedMarket :=
  {| total_liquidity := total_liquidity market;
     creation_block := creation_block market;
     current_block := block |}.

(** A float that may be [float('inf')]. *)
Inductive ExtQ : Type :=
| Finite (q : Q)
| Infinity.

(** [x <= bound] for a finite [bound]. *)
Definition ext_leb (x : ExtQ) (bound : Q) : bool :=
  match x with
  | Finite q => Qle_bool q bound
  | Infinity => false
  end.

(** [min(u.capital, market.calculate_position_limit(u))]. *)
Definition effective_stake (market : ReputationWeightedMarket) (u : User) : Q :=
  Qmin (capital u) (calculate_position_limit market u).

(** The dictionary returned by [simulate_whale_attack]. *)
Record WhaleReport : Type := mkWhaleReport {
  attacker_capital : Q;
  attacker_reputation : Q;
  attacker_accuracy : Q;
  attacker_limit : Q;
  attacker_effective_stake : Q;
  total_capital : Q;
  attacker_capital_pct : Q;
  attacker_influence_pct : Q;
  expected_influence_pct : Q;
  gain_ratio : Q;
  protection_effectiveness : Q
}.

(** [simulate_whale_attack]: the market as the call leaves it, and the
    report or the exception. *)
Definition simulate_whale_attack (market0 : ReputationWeightedMarket)
    (attacker : User) (honest_users : list User)
    : ReputationWeightedMarket * result WhaleReport :=
  let market := set_current_block market0 600 in
  let attacker_limit_ := calculate_position_limit market attacker in
  let attacker_effective_stake_ := Qmin (capital attacker) attacker_limit_ in
  let honest_total_stake := sum (map (effective_stake market) honest_users) in
  let total_effective := attacker_effective_stake_ + honest_total_stake in
  let attacker_influence :=
    if gtb total_effective 0 then attacker_effective_stake_ / total_effective
    else 0 in
  let total_capital_ := capital attacker + sum (map capital honest_users) in
  let expected_influence :=
    if gtb total_capital_ 0 then capital attacker / total_capital_ else 0 in
  let gain_ratio_ :=
    if gtb expected_influence 0 then attacker_influence / expected_influence
    else 0 in
  (market,
   pct <- pydiv (capital attacker) total_capital_ ;;
   Ok {| attacker_capital := capital attacker;
         attacker_reputation := reputation attacker;
         attacker_accuracy := accuracy attacker;
         attacker_limit := attacker_limit_;
         attacker_effective_stake := attacker_effective_stake_;
         total_capital := total_capital_;
         attacker_capital_pct := pct * 100;
         attacker_influence_pct := attacker_influence * 100;
         expected_influence_pct := expected_influence * 100;
         gain_ratio := gain_ratio_;
         protection_effectiveness :=
           if gtb expected_influence 0
           then (expected_influence - attacker_influence)
                / expected_influence * 100
           else 0 |}).

(** [f"sybil_{i}"]. *)
Definition sybil_address (i : nat) : String.string :=
  String.append Literals.sybil_prefix
    (DecimalString.NilEmpty.string_of_uint (Nat.to_uint i)).

(** The dictionary returned by [simulate_sybil_attack]. *)
Record SybilReport : Type := mkSybilReport {
  sybil_count : Z;
  capital_per_sybil : Q;
  sybil_initial_rep : Q;
  genesis_blocked : bool;
  genesis_eligible_count : nat;
  sybil_total_limit : Q;
  sybil_per_user_limit : Q;
  single_tier3_limit : Q;
  sybil_advantage_tier3 : ExtQ;
  single_tier5_limit : Q;
  sybil_advantage_tier5 : ExtQ;
  sybil_influence_pct : Q;
  honest_influence_pct : Q;
  meritrank_compliant : bool
}.

(** The identities the attacker creates. *)
Definition sybil_users (capital_per_sybil_ : Q) (count : Z) : list User :=
  map (fun i => mkUser (sybil_address i) capital_per_sybil_ INITIAL_REP 0.50 1)
      (seq 0 (Z.to_nat count)).

(** [simulate_sybil_attack]: the market as the call leaves it, and the report
    or the exception. *)
Definition simulate_sybil_attack (market0 : ReputationWeightedMarket)
    (total_attacker_capital : Q) (count : Z) (honest_users : list User)
    : ReputationWeightedMarket * result SybilReport :=
  match pydiv total_attacker_capital (inject_Z count) with
  | Err e => (market0, Err e)
  | Ok capital_per_sybil_ =>
      let sybils := sybil_users capital_per_sybil_ count in
      let market1 := set_current_block market0 50 in
      let genesis_eligible :=
        filter (can_participate_in_genesis market1) sybils in
      let genesis_result :=
        if (length genesis_eligible =? 0)%nat then (true, 0%nat, 0)
        else (false, length genesis_eligible,
              sum (map (calculate_position_limit market1) genesis_eligible)) in
      let market := set_current_block market1 600 in
      let sybil_limits := map (calculate_position_limit market) sybils in
      let sybil_total_limit_ := sum sybil_limits in
      let single_tier3 :=
        mkUser Literals.single_tier3 total_attacker_capital TIER_3_REP TIER_3_ACC
               count in
      let single_tier3_limit_ := calculate_position_limit market single_tier3 in
      let sybil_advantage_tier3_ :=
        if gtb single_tier3_limit_ 0
        then Finite (sybil_total_limit_ / single_tier3_limit_) else Infinity in
      let single_tier5 :=
        mkUser Literals.single_tier5 total_attacker_capital TIER_5_REP TIER_5_ACC
               (count * 10) in
      let single_tier5_limit_ := calculate_position_limit market single_tier5 in
      let sybil_advantage_tier5_ :=
        if gtb single_tier5_limit_ 0
        then Finite (sybil_total_limit_ / single_tier5_limit_) else Infinity in
      let honest_total := sum (map (effective_stake market) honest_users) in
      let total_market := sybil_total_limit_ + honest_total in
      let sybil_influence :=
        if gtb total_market 0 then sybil_total_limit_ / total_market else 0 in
      (market,
       Ok {| sybil_count := count;
             capital_per_sybil := capital_per_sybil_;
             sybil_initial_rep := INITIAL_REP;
             genesis_blocked := fst (fst genesis_result);
             genesis_eligible_count := snd (fst genesis_result);
             sybil_total_limit := sybil_total_limit_;
             sybil_per_user_limit :=
               match sybil_limits with l :: _ => l | [] => 0 end;
             single_tier3_limit := single_tier3_limit_;
             sybil_advantage_tier3 := sybil_advantage_tier3_;
             single_tier5_limit := single_tier5_limit_;
             sybil_advantage_tier5 := sybil_advantage_tier5_;
             sybil_influence_pct := sybil_influence * 100;
             honest_influence_pct := (1 - sybil_influence) * 100;
             meritrank_compliant := ext_leb sybil_advantage_tier5_ 2.0 |})
  end.

End SybilAttacks.

(** ** cartel_analysis.py: one scenario of the Monte Carlo run *)

Module CartelScenarios.

Import CartelAnalysis.

(** A row appended to [results] by [simulate_cartel_scenarios]. *)
Record ScenarioRow : Type := mkScenarioRow {
  trial : Z;
  n_legislators : nat;
  row_market_value : Q;
  row_min_cartel_size : nat;
  cartel_cost : Q;
  cartel_power : Q;
  attack_gain : Q;
  detection_prob : Q;
  expected_value : Q;
  profitable : bool
}.

(** The body of the innermost loop of [simulate_cartel_scenarios], once the
    legislators' profiles have been drawn (here as lists); subtracting a
    [total_cost] of [None] raises [TypeError]. *)
Definition scenario_row (solve : Solver) (trial_ : Z) (n_legs : nat)
    (market_val : Q) (performance_scores reputation_values : list Q)
    : result ScenarioRow :=
  let cartel := mkCartel n_legs performance_scores reputation_values
                         market_val in
  min_cartel <- find_minimum_cartel solve cartel ;;
  let detection_prob_ :=
    Qmin (0.05 * inject_Z (Z.of_nat (min_cartel_size min_cartel))) 0.95 in
  let attack_gain_ := market_val * 0.50 in
  match total_cost min_cartel with
  | None => Err TypeError
  | Some cost_ =>
      let expected_value_ := attack_gain_ * (1 - detection_prob_) - cost_ in
      Ok {| trial := trial_;
            n_legislators := n_legs;
            row_market_value := market_val;
            row_min_cartel_size := min_cartel_size min_cartel;
            cartel_cost := cost_;
            cartel_power := voting_power (power min_cartel);
            attack_gain := attack_gain_;
            detection_prob := detection_prob_;
            expected_value := expected_value_;
            profitable := gtb expected_value_ 0 |}
  end.

End CartelScenarios.

(** * Properties *)

(** ** Comparisons as propositions *)

Lemma geb_true (a b : Q) : geb a b = true <-> b <= a.
Proof. unfold geb. apply Qle_bool_iff. Qed.

Lemma geb_false (a b : Q) : geb a b = false <-> a < b.
Proof.
  unfold geb. split; intro H.
  - apply Qnot_le_lt. intro Hle. apply Qle_bool_iff in Hle. congruence.
  - destruct (Qle_bool b a) eqn:E; [|reflexivity].
    apply Qle_bool_iff in E. apply Qlt_not_le in H. contradiction.
Qed.

Lemma gtb_true (a b : Q) : gtb a b = true <-> b < a.
Proof.
  unfold gtb. rewrite negb_true_iff. apply (geb_false b a).
Qed.

Lemma gtb_false (a b : Q) : gtb a b = false <-> a <= b.
Proof.
  unfold gtb. rewrite negb_false_iff. apply Qle_bool_iff.
Qed.

(** ** Position limits *)

Import CartelAnalysis.

Section PositionLimit.

Import SybilSimulation.

Variable self : ReputationWeightedMarket.
Variable user : User.

Lemma early_growth_fraction_bounds :
  (GENESIS_PHASE_BLOCKS <= blocks_since_creation self < EARLY_GROWTH_BLOCKS)%Z ->
  0 <= inject_Z (blocks_since_creation self - GENESIS_PHASE_BLOCKS)
       / inject_Z (EARLY_GROWTH_BLOCKS - GENESIS_PHASE_BLOCKS) <= 1.
Proof.
  intros [Hlo Hhi].
  assert (H400 : 0 < inject_Z (EARLY_GROWTH_BLOCKS - GENESIS_PHASE_BLOCKS))
    by reflexivity.
  split.
  - apply Qle_shift_div_l; [exact H400|].
    rewrite Qmult_0_l. change 0 with (inject_Z 0). rewrite <- Zle_Qle. lia.
  - apply Qle_shift_div_r; [exact H400|].
    rewrite Qmult_1_l. rewrite <- Zle_Qle.
    unfold EARLY_GROWTH_BLOCKS, GENESIS_PHASE_BLOCKS in *. lia.
Qed.

(** C1: whatever the phase, the limit of [calculate_position_limit] stays
    within the market's total liquidity, as soon as that liquidity is
    positive.  (No assumption on the participant or on the clock is needed.) *)
Theorem position_limit_le_total_liquidity :
  0 < total_liquidity self ->
  calculate_position_limit self user <= total_liquidity self.
Proof.
  intro HL. unfold calculate_position_limit. cbv zeta.
  destruct (blocks_since_creation self <? GENESIS_PHASE_BLOCKS)%Z eqn:Hgen.
  - destruct (negb (can_participate_in_genesis self user)).
    + apply Qlt_le_weak. exact HL.
    + cbv zeta.
      eapply Qle_trans; [apply Q.le_min_r|]. lra.
  - apply Z.ltb_ge in Hgen.
    destruct (blocks_since_creation self <? EARLY_GROWTH_BLOCKS)%Z eqn:Hearly.
    + apply Z.ltb_lt in Hearly. cbv zeta.
      destruct (early_growth_fraction_bounds (conj Hgen Hearly)) as [_ Hfr].
      set (t := inject_Z (blocks_since_creation self - GENESIS_PHASE_BLOCKS)
                / inject_Z (EARLY_GROWTH_BLOCKS - GENESIS_PHASE_BLOCKS)) in *.
      setoid_replace (total_liquidity self) with (total_liquidity self * 1)
        at 2 by ring.
      apply Qmult_le_l; [exact HL | lra].
    + cbv zeta.
      setoid_replace (total_liquidity self) with (total_liquidity self * 1)
        at 2 by ring.
      apply Qmult_le_l; [exact HL|].
      unfold TIER_5_LIMIT, TIER_4_LIMIT, TIER_3_LIMIT, TIER_2_LIMIT, TIER_1_LIMIT.
      repeat match goal with
             | |- context [if ?b then _ else _] => destruct b
             end; lra.
Qed.

(** C2: during Genesis the limit is exactly 0 below 1000 reputation, and
    otherwise the smaller of [(1000 * 0.20 * min(reputation/1000, 10)) / 10]
    and [total_liquidity * 0.20]. *)
Theorem genesis_position_limit :
  (blocks_since_creation self < 100)%Z ->
  (reputation user < 1000 -> calculate_position_limit self user = 0) /\
  (1000 <= reputation user ->
   calculate_position_limit self user =
   Qmin ((1000 * 0.20 * Qmin (reputation user / 1000) 10) / 10)
        (total_liquidity self * 0.20)).
Proof.
  intro Hgen.
  assert (Hb : (blocks_since_creation self <? GENESIS_PHASE_BLOCKS)%Z = true)
    by (apply Z.ltb_lt; exact Hgen).
  unfold calculate_position_limit, can_participate_in_genesis.
  cbv zeta. rewrite Hb. split; intro Hrep.
  - apply (geb_false _ MIN_REP_FOR_GENESIS) in Hrep. rewrite Hrep. reflexivity.
  - apply (geb_true _ MIN_REP_FOR_GENESIS) in Hrep. rewrite Hrep. reflexivity.
Qed.

(** The Genesis branch for a participant the gate admits. *)
Lemma genesis_limit_eligible :
  (blocks_since_creation self < 100)%Z ->
  1000 <= reputation user ->
  calculate_position_limit self user =
  Qmin ((1000 * 0.20 * Qmin (reputation user / 1000) 10) / 10)
       (total_liquidity self * 0.20).
Proof.
  intros Hgen Hrep.
  assert (Hb : (blocks_since_creation self <? GENESIS_PHASE_BLOCKS)%Z = true)
    by (apply Z.ltb_lt; exact Hgen).
  apply (geb_true _ MIN_REP_FOR_GENESIS) in Hrep.
  unfold calculate_position_limit, can_participate_in_genesis.
  rewrite Hb, Hrep. reflexivity.
Qed.

(** C10: during Genesis an eligible participant's limit is
    [min(20 * repFactor, 0.20 * total_liquidity)] with [repFactor] capped at
    10, hence at most 200 whatever the reputation and the liquidity. *)
Theorem genesis_limit_at_most_200 :
  (blocks_since_creation self < 100)%Z ->
  1000 <= reputation user ->
  calculate_position_limit self user ==
    Qmin (20 * Qmin (reputation user / 1000) 10) (0.20 * total_liquidity self)
  /\ calculate_position_limit self user <= 200.
Proof.
  intros Hgen Hrep.
  rewrite (genesis_limit_eligible Hgen Hrep).
  set (f := Qmin (reputation user / 1000) 10).
  assert (Hf : f <= 10) by apply Q.le_min_r.
  assert (E1 : 1000 * 0.20 * f / 10 == 20 * f) by field.
  assert (E2 : total_liquidity self * 0.20 == 0.20 * total_liquidity self)
    by ring.
  split.
  - rewrite E1, E2. reflexivity.
  - eapply Qle_trans; [apply Q.le_min_l|]. rewrite E1. lra.
Qed.

End PositionLimit.


Lemma position_limit_le_total_liquidity_witness :
  0 < 1000 /\
  SybilSimulation.calculate_position_limit
    (SybilSimulation.mkMarket 1000 0 250)
    (SybilSimulation.mkUser String.EmptyString 5 1500 0.75 3) <= 1000.
Proof.
  split; [reflexivity|].
  apply (position_limit_le_total_liquidity
           (SybilSimulation.mkMarket 1000 0 250)
           (SybilSimulation.mkUser String.EmptyString 5 1500 0.75 3)).
  reflexivity.
Defined.

Lemma genesis_position_limit_witness :
  SybilSimulation.calculate_position_limit
    (SybilSimulation.mkMarket 5000 0 50)
    (SybilSimulation.mkUser String.EmptyString 5 100 0.50 1) = 0
  /\
  SybilSimulation.calculate_position_limit
    (SybilSimulation.mkMarket 5000 0 50)
    (SybilSimulation.mkUser String.EmptyString 5 2500 0.50 1) =
  Qmin ((1000 * 0.20 * Qmin (2500 / 1000) 10) / 10) (5000 * 0.20).
Proof.
  split.
  - apply (genesis_position_limit
             (SybilSimulation.mkMarket 5000 0 50)
             (SybilSimulation.mkUser String.EmptyString 5 100 0.50 1));
      reflexivity.
  - apply (genesis_position_limit
             (SybilSimulation.mkMarket 5000 0 50)
             (SybilSimulation.mkUser String.EmptyString 5 2500 0.50 1));
      [reflexivity | discriminate].
Defined.

Lemma genesis_limit_at_most_200_witness :
  SybilSimulation.calculate_position_limit
    (SybilSimulation.mkMarket 5000 0 50)
    (SybilSimulation.mkUser String.EmptyString 5 25000 0.80 40) <= 200.
Proof.
  apply (genesis_limit_at_most_200
           (SybilSimulation.mkMarket 5000 0 50)
           (SybilSimulation.mkUser String.EmptyString 5 25000 0.80 40)).
  - reflexivity.
  - discriminate.
Defined.

(** ** The tier table *)

Section Tiers.

Import PredictionAccuracy.

(** A tier whose two floors are met by a participant is met by every
    participant at least as reputable and at least as accurate. *)
Lemma tier_floor_mono (rep1 acc1 rep2 acc2 minRep minAcc : Q) :
  rep1 <= rep2 -> acc1 <= acc2 ->
  geb rep1 minRep && geb acc1 minAcc = true ->
  geb rep2 minRep && geb acc2 minAcc = true.
Proof.
  intros Hr Ha H. apply andb_true_iff in H. destruct H as [H1 H2].
  apply geb_true in H1. apply geb_true in H2.
  apply andb_true_iff. split; apply geb_true; lra.
Qed.

(** In the Standard phase the market of [sybil_simulation.py] grants the
    fraction of [prediction_accuracy.py]'s table times the liquidity. *)
Lemma standard_limit_is_tier_fraction
    (self : SybilSimulation.ReputationWeightedMarket)
    (user : SybilSimulation.User) :
  (SybilSimulation.EARLY_GROWTH_BLOCKS
     <= SybilSimulation.blocks_since_creation self)%Z ->
  SybilSimulation.calculate_position_limit self user =
  SybilSimulation.total_liquidity self *
  calculate_position_limit (SybilSimulation.reputation user)
                           (SybilSimulation.accuracy user).
Proof.
  intro H. unfold SybilSimulation.calculate_position_limit.
  assert (H1 : (SybilSimulation.blocks_since_creation self
                  <? SybilSimulation.GENESIS_PHASE_BLOCKS)%Z = false).
  { apply Z.ltb_ge. unfold SybilSimulation.EARLY_GROWTH_BLOCKS,
      SybilSimulation.GENESIS_PHASE_BLOCKS in *. lia. }
  assert (H2 : (SybilSimulation.blocks_since_creation self
                  <? SybilSimulation.EARLY_GROWTH_BLOCKS)%Z = false)
    by (apply Z.ltb_ge; exact H).
  rewrite H1, H2. reflexivity.
Qed.

(** C7: the tier lookup is monotone in (reputation, accuracy): a participant
    who is at least as reputable and at least as accurate as another is
    assigned at least the same limit fraction; the same holds for the limits
    the Standard phase derives from that fraction. *)
Theorem tier_lookup_monotone (rep1 acc1 rep2 acc2 : Q) :
  rep1 <= rep2 -> acc1 <= acc2 ->
  calculate_position_limit rep1 acc1 <= calculate_position_limit rep2 acc2
  /\ forall (self : SybilSimulation.ReputationWeightedMarket)
            (u1 u2 : SybilSimulation.User),
       (500 <= SybilSimulation.blocks_since_creation self)%Z ->
       0 <= SybilSimulation.total_liquidity self ->
       SybilSimulation.reputation u1 = rep1 ->
       SybilSimulation.accuracy u1 = acc1 ->
       SybilSimulation.reputation u2 = rep2 ->
       SybilSimulation.accuracy u2 = acc2 ->
       SybilSimulation.calculate_position_limit self u1 <=
       SybilSimulation.calculate_position_limit self u2.
Proof.
  intros Hr Ha.
  assert (Hfrac : calculate_position_limit rep1 acc1
                  <= calculate_position_limit rep2 acc2).
  { unfold calculate_position_limit.
    pose proof (tier_floor_mono rep1 acc1 rep2 acc2 TIER_5_REP TIER_5_ACC Hr Ha) as M5.
    pose proof (tier_floor_mono rep1 acc1 rep2 acc2 TIER_4_REP TIER_4_ACC Hr Ha) as M4.
    pose proof (tier_floor_mono rep1 acc1 rep2 acc2 TIER_3_REP TIER_3_ACC Hr Ha) as M3.
    pose proof (tier_floor_mono rep1 acc1 rep2 acc2 TIER_2_REP TIER_2_ACC Hr Ha) as M2.
    destruct (geb rep1 TIER_5_REP && geb acc1 TIER_5_ACC);
      [rewrite (M5 eq_refl); apply Qle_refl|].
    destruct (geb rep1 TIER_4_REP && geb acc1 TIER_4_ACC);
      [rewrite (M4 eq_refl);
       destruct (geb rep2 TIER_5_REP && geb acc2 TIER_5_ACC); discriminate|].
    destruct (geb rep1 TIER_3_REP && geb acc1 TIER_3_ACC);
      [rewrite (M3 eq_refl);
       destruct (geb rep2 TIER_5_REP && geb acc2 TIER_5_ACC);
       destruct (geb rep2 TIER_4_REP && geb acc2 TIER_4_ACC); discriminate|].
    destruct (geb rep1 TIER_2_REP && geb acc1 TIER_2_ACC);
      [rewrite (M2 eq_refl)|];
      destruct (geb rep2 TIER_5_REP && geb acc2 TIER_5_ACC);
      destruct (geb rep2 TIER_4_REP && geb acc2 TIER_4_ACC);
      destruct (geb rep2 TIER_3_REP && geb acc2 TIER_3_ACC);
      try destruct (geb rep2 TIER_2_REP && geb acc2 TIER_2_ACC);
      discriminate. }
  split; [exact Hfrac|].
  intros self u1 u2 Hstd HL E1 E2 E3 E4.
  rewrite !standard_limit_is_tier_fraction by exact Hstd.
  rewrite E1, E2, E3, E4.
  destruct (Qle_lt_or_eq _ _ HL) as [Hpos | Hzero].
  - apply Qmult_le_l; assumption.
  - rewrite <- Hzero. rewrite !Qmult_0_l. apply Qle_refl.
Qed.

Lemma tier_lookup_monotone_witness :
  calculate_position_limit 1500 0.60 <= calculate_position_limit 6000 0.66
  /\ SybilSimulation.calculate_position_limit
       (SybilSimulation.mkMarket 1000 0 600)
       (SybilSimulation.mkUser String.EmptyString 5 1500 0.60 3) <=
     SybilSimulation.calculate_position_limit
       (SybilSimulation.mkMarket 1000 0 600)
       (SybilSimulation.mkUser String.EmptyString 9 6000 0.66 8).
Proof.
  destruct (tier_lookup_monotone 1500 0.60 6000 0.66) as [Hfrac Hlim].
  - discriminate.
  - discriminate.
  - split; [exact Hfrac|].
    apply Hlim; first [reflexivity | discriminate].
Defined.

End Tiers.

(** ** Reputation decay *)

Section Decay.

Import SybilSimulation.

Lemma remaining_no_decay (rep : Q) (months : Z) :
  (months * 30 <= MIN_ACTIVITY_THRESHOLD_DAYS)%Z ->
  remaining_rep rep months = rep.
Proof.
  intro H. unfold remaining_rep, simulate_reputation_decay_resistance.
  apply Z.leb_le in H. rewrite H. reflexivity.
Qed.

Lemma remaining_decay (rep : Q) (months : Z) :
  (MIN_ACTIVITY_THRESHOLD_DAYS < months * 30)%Z ->
  remaining_rep rep months =
  Qmax (rep - rep * total_decay_rate months) (rep * MIN_PROTECTION_RATE).
Proof.
  intro H. unfold remaining_rep, simulate_reputation_decay_resistance.
  apply Z.leb_gt in H. rewrite H. reflexivity.
Qed.

Lemma decay_periods_linear (months : Z) :
  decay_periods months == inject_Z months - 3.
Proof.
  unfold decay_periods, inactive_days, MIN_ACTIVITY_THRESHOLD_DAYS,
    DECAY_PERIOD_DAYS.
  unfold Z.sub. rewrite inject_Z_plus, inject_Z_mult.
  change (inject_Z (- (90))) with (- (90)). change (inject_Z 30) with 30.
  field.
Qed.

Lemma total_decay_rate_nonneg (months : Z) :
  (MIN_ACTIVITY_THRESHOLD_DAYS < months * 30)%Z ->
  0 <= total_decay_rate months.
Proof.
  intro H. unfold total_decay_rate.
  apply Q.min_glb; [|discriminate].
  rewrite decay_periods_linear.
  assert (3 <= inject_Z months).
  { change 3 with (inject_Z 3). rewrite <- Zle_Qle.
    unfold MIN_ACTIVITY_THRESHOLD_DAYS in H. lia. }
  unfold DECAY_RATE. lra.
Qed.

Lemma total_decay_rate_mono (m1 m2 : Z) :
  (m1 <= m2)%Z -> total_decay_rate m1 <= total_decay_rate m2.
Proof.
  intro H. unfold total_decay_rate.
  apply Q.min_le_compat_r.
  rewrite !decay_periods_linear.
  rewrite Zle_Qle in H. unfold DECAY_RATE. lra.
Qed.

(** C8: for a non-negative initial reputation, no inactivity leaves the
    reputation unchanged, longer inactivity never leaves more reputation, and
    at least a quarter of the initial reputation always remains.  The
    inactivity is counted in the function's unit, whole months of 30 days. *)
Theorem decay_properties (rep : Q) :
  0 <= rep ->
  remaining_rep rep 0 = rep
  /\ (forall m1 m2 : Z, (m1 <= m2)%Z -> remaining_rep rep m2 <= remaining_rep rep m1)
  /\ (forall m : Z, rep * 0.25 <= remaining_rep rep m).
Proof.
  intro Hrep. split; [|split].
  - apply remaining_no_decay. discriminate.
  - intros m1 m2 Hle.
    destruct (Z_le_gt_dec (m2 * 30) MIN_ACTIVITY_THRESHOLD_DAYS) as [H2 | H2].
    + rewrite (remaining_no_decay rep m2 H2).
      rewrite (remaining_no_decay rep m1) by lia. apply Qle_refl.
    + apply Z.gt_lt in H2. rewrite (remaining_decay rep m2 H2).
      destruct (Z_le_gt_dec (m1 * 30) MIN_ACTIVITY_THRESHOLD_DAYS) as [H1 | H1].
      * rewrite (remaining_no_decay rep m1 H1).
        pose proof (total_decay_rate_nonneg m2 H2) as Hr.
        pose proof (Qmult_le_0_compat _ _ Hrep Hr) as Hp.
        apply Q.max_lub; unfold MIN_PROTECTION_RATE; lra.
      * apply Z.gt_lt in H1. rewrite (remaining_decay rep m1 H1).
        apply Q.max_le_compat_r.
        pose proof (total_decay_rate_mono m1 m2 Hle) as Hr.
        assert (rep * total_decay_rate m1 <= rep * total_decay_rate m2).
        { destruct (Qle_lt_or_eq _ _ Hrep) as [Hpos | Hz].
          - apply Qmult_le_l; assumption.
          - rewrite <- Hz, !Qmult_0_l. apply Qle_refl. }
        lra.
  - intro m.
    destruct (Z_le_gt_dec (m * 30) MIN_ACTIVITY_THRESHOLD_DAYS) as [H | H].
    + rewrite (remaining_no_decay rep m H). lra.
    + apply Z.gt_lt in H. rewrite (remaining_decay rep m H).
      apply Q.le_max_r.
Qed.

Lemma decay_properties_witness :
  0 <= 10000 /\
  remaining_rep 10000 0 = 10000 /\
  remaining_rep 10000 12 <= remaining_rep 10000 6 /\
  10000 * 0.25 <= remaining_rep 10000 120.
Proof.
  assert (H : 0 <= 10000) by discriminate.
  destruct (decay_properties 10000 H) as [H0 [Hmono Hfloor]].
  split; [exact H|]. split; [exact H0|]. split.
  - apply Hmono. discriminate.
  - apply Hfloor.
Defined.

(** C9, as the function computes it: twelve months are 360 days, which gives
    9 decay periods, a total decay rate of 0.09 and 9100 reputation left out
    of 10000, above the floor of 2500. *)
Theorem decay_after_12_months :
  inject_Z (12 * 30) == 360
  /\ decay_periods 12 == 9
  /\ total_decay_rate 12 == 0.09
  /\ remaining_rep 10000 12 == 9100
  /\ 10000 * MIN_PROTECTION_RATE < remaining_rep 10000 12.
Proof.
  repeat split; vm_compute; reflexivity.
Qed.

(** C9 as stated does not hold for the twelve months the function is given:
    the decay periods are not about 9.17, the total rate is not about 0.0917
    and the remaining_rep reputation is not about 9083. *)
Lemma decay_after_12_months_counterexample :
  ~ (9.16 <= decay_periods 12 <= 9.18)
  /\ ~ (0.0916 <= total_decay_rate 12 <= 0.0918)
  /\ ~ (9082 <= remaining_rep 10000 12 <= 9084).
Proof.
  repeat split; intros [H1 H2]; vm_compute in H1, H2;
    first [apply H1; reflexivity | apply H2; reflexivity].
Qed.

End Decay.

(** ** Sums and comprehensions *)

Lemma fold_left_Qplus_acc (xs : list Q) (a : Q) :
  fold_left Qplus xs a == a + fold_left Qplus xs 0.
Proof.
  revert a. induction xs as [|x xs IH]; intro a; simpl.
  - ring.
  - rewrite (IH (a + x)), (IH (0 + x)). ring.
Qed.

Lemma sum_nil : sum [] = 0.
Proof. reflexivity. Qed.

Lemma sum_cons (x : Q) (xs : list Q) : sum (x :: xs) == x + sum xs.
Proof.
  unfold sum. simpl. rewrite fold_left_Qplus_acc. ring.
Qed.

Lemma sum_map_plus_const (f : Q -> Q) (c : Q) (xs : list Q) :
  sum (map (fun x => f x + c) xs) ==
  sum (map f xs) + inject_Z (Z.of_nat (length xs)) * c.
Proof.
  induction xs as [|x xs IH].
  - simpl. rewrite sum_nil. ring.
  - cbn [map length]. rewrite !sum_cons, IH.
    rewrite Nat2Z.inj_succ. unfold Z.succ. rewrite inject_Z_plus. ring.
Qed.

Lemma sum_nonneg (xs : list Q) : Forall (Qle 0) xs -> 0 <= sum xs.
Proof.
  induction 1 as [|x xs Hx _ IH].
  - rewrite sum_nil. apply Qle_refl.
  - rewrite sum_cons. lra.
Qed.

Lemma mapM_length {A B : Type} (f : A -> result B) (xs : list A) (ys : list B) :
  mapM f xs = Ok ys -> length ys = length xs.
Proof.
  revert ys. induction xs as [|x xs IH]; intros ys H; simpl in H.
  - injection H as <-. reflexivity.
  - destruct (f x) as [y|]; [|discriminate]. simpl in H.
    destruct (mapM f xs) as [ys'|]; [|discriminate]. simpl in H.
    injection H as <-. simpl. f_equal. apply IH. reflexivity.
Qed.

Lemma mapM_In {A B : Type} (f : A -> result B) (xs : list A) (ys : list B) (y : B) :
  mapM f xs = Ok ys -> In y ys -> exists x, In x xs /\ f x = Ok y.
Proof.
  revert ys. induction xs as [|x xs IH]; intros ys H Hin; simpl in H.
  - injection H as <-. destruct Hin.
  - destruct (f x) as [y0|] eqn:Ex; [|discriminate]. simpl in H.
    destruct (mapM f xs) as [ys'|]; [|discriminate]. simpl in H.
    injection H as <-. destruct Hin as [<- | Hin].
    + exists x. split; [left; reflexivity | exact Ex].
    + destruct (IH ys' eq_refl Hin) as [x' [Hx' Hf]].
      exists x'. split; [right; exact Hx' | exact Hf].
Qed.

(** A comprehension whose body first reads one list entry and then cannot
    fail maps the function over those entries. *)
Lemma mapM_getitem_then {A B : Type} (xs : list A) (idx : list nat)
    (vals : list A) (g : A -> B) (f : nat -> result B) :
  (forall i, f i = (x <- getitem xs i ;; Ok (g x))) ->
  mapM (getitem xs) idx = Ok vals ->
  mapM f idx = Ok (map g vals).
Proof.
  intro Hf. revert vals. induction idx as [|i idx IH]; intros vals H; simpl in H.
  - injection H as <-. reflexivity.
  - destruct (getitem xs i) as [x|] eqn:Ex; [|discriminate]. simpl in H.
    destruct (mapM (getitem xs) idx) as [vs|]; [|discriminate]. simpl in H.
    injection H as <-. simpl. rewrite Hf, Ex. simpl.
    rewrite (IH vs eq_refl). reflexivity.
Qed.

(** ** The cost of a coalition *)

Section AttackCost.

Variable self : LegislatorCartel.

Lemma attack_cost_unfold (cartel : list nat) (reps : list Q) :
  mapM (getitem (reputations self)) cartel = Ok reps ->
  calculate_attack_cost self cartel =
  Ok (let base :=
        sum (map (fun r => market_value self * 0.025 * 12 + r * 0.10 * 0.30
                           + inject_Z (Z.of_nat (length cartel)) * 0.1) reps) in
      base + base * inject_Z (Z.of_nat (length cartel) - 1) * 0.05).
Proof.
  intro H. unfold calculate_attack_cost.
  rewrite (mapM_getitem_then (reputations self) cartel reps
             (fun r => market_value self * 0.025 * 12 + r * 0.10 * 0.30
                       + inject_Z (Z.of_nat (length cartel)) * 0.1)
             (member_cost self cartel)); [reflexivity | | exact H].
  intro i. unfold member_cost. destruct (getitem (reputations self) i); reflexivity.
Qed.

(** C5, as the code computes it: every member is charged its expected
    earnings, its reputation risk and a coordination charge of 0.1 per member
    of the coalition; the total is the sum [base] of these charges plus an
    overhead of [base * (size - 1) * 0.05].  With [own] the sum of earnings
    and risks alone and [k] the coalition size, [base = own + 0.1 * k * k]. *)
Theorem attack_cost_formula (cartel : list nat) (reps : list Q) :
  mapM (getitem (reputations self)) cartel = Ok reps ->
  exists total base : Q,
    calculate_attack_cost self cartel = Ok total
    /\ base == sum (map (fun r => market_value self * 0.025 * 12
                                  + r * 0.10 * 0.30) reps)
               + 0.1 * inject_Z (Z.of_nat (length cartel))
                     * inject_Z (Z.of_nat (length cartel))
    /\ total == base
                + base * (inject_Z (Z.of_nat (length cartel)) - 1) * 0.05.
Proof.
  intro H. rewrite (attack_cost_unfold cartel reps H). cbv zeta.
  eexists.
  exists (sum (map (fun r => market_value self * 0.025 * 12 + r * 0.10 * 0.30
                             + inject_Z (Z.of_nat (length cartel)) * 0.1) reps)).
  split; [reflexivity|]. split.
  - rewrite (sum_map_plus_const
               (fun r => market_value self * 0.025 * 12 + r * 0.10 * 0.30)).
    rewrite (mapM_length _ _ _ H). ring.
  - unfold Z.sub. rewrite inject_Z_plus.
    change (inject_Z (- (1))) with (- (1)). ring.
Qed.

End AttackCost.

Lemma attack_cost_formula_witness :
  exists total base : Q,
    calculate_attack_cost (uniform7 1000) [0; 2; 4; 5; 6]%nat = Ok total
    /\ base == sum (map (fun r => 1000 * 0.025 * 12 + r * 0.10 * 0.30)
                        (repeat 100 5))
               + 0.1 * 5 * 5
    /\ total == base + base * (5 - 1) * 0.05.
Proof.
  apply (attack_cost_formula (uniform7 1000) [0; 2; 4; 5; 6]%nat (repeat 100 5)).
  reflexivity.
Defined.

(** C5 as stated fails already for a single member: with market value 1000
    and reputation 100 the cost is 303.1, not the 303 of earnings plus risk. *)
Lemma attack_cost_counterexample :
  exists total : Q,
    calculate_attack_cost (mkCartel 1 [100] [100] 1000) [0%nat] = Ok total
    /\ total == 303.1
    /\ ~ total ==
         (1000 * 0.025 * 12 + 100 * 0.10 * 0.30)
         + (1000 * 0.025 * 12 + 100 * 0.10 * 0.30) * (1 - 1) * 0.05.
Proof.
  eexists. split; [reflexivity|]. split.
  - reflexivity.
  - discriminate.
Qed.

(** ** Empty and degenerate populations *)

Lemma pydiv_zero (a b : Q) : b == 0 -> pydiv a b = Err ZeroDivisionError.
Proof.
  intro H. unfold pydiv. apply Qeq_bool_iff in H. rewrite H. reflexivity.
Qed.

Lemma pydiv_nonzero (a b : Q) : ~ b == 0 -> pydiv a b = Ok (a / b).
Proof.
  intro H. unfold pydiv. destruct (Qeq_bool b 0) eqn:E; [|reflexivity].
  apply Qeq_bool_iff in E. contradiction.
Qed.

Lemma pydiv_Ok (a b q : Q) : pydiv a b = Ok q -> ~ b == 0 /\ q = a / b.
Proof.
  unfold pydiv. destruct (Qeq_bool b 0) eqn:E; [discriminate|].
  intro H. injection H as <-. split; [|reflexivity].
  intro Hz. apply Qeq_bool_iff in Hz. congruence.
Qed.

(** C6, as the code behaves: there is no guard on the denominators.  For an
    empty population [find_minimum_cartel] ends in [ZeroDivisionError]
    whatever the solver leaves behind, because the power of the selected
    (empty) cartel divides by the zero score total; and [calculate_cartel_power]
    returns no result at all for a population whose score total or reputation
    total is zero. *)
Theorem zero_totals_raise :
  (forall (solve : Solver) (mv : Q),
     find_minimum_cartel solve (empty_population mv) = Err ZeroDivisionError)
  /\ (forall (self : LegislatorCartel) (members : list nat),
        sum (scores self) == 0 \/ sum (reputations self) == 0 ->
        exists e : exn, calculate_cartel_power self members = Err e).
Proof.
  split.
  - intros solve mv. reflexivity.
  - intros self members Hz. unfold calculate_cartel_power.
    destruct (mapM (getitem (scores self)) members) as [ss|e];
      [|exists e; reflexivity].
    cbn [bind].
    destruct (mapM (getitem (reputations self)) members) as [rs|e];
      [|exists e; reflexivity].
    cbn [bind].
    destruct (Qeq_dec (sum (scores self)) 0) as [Hs | Hs].
    + rewrite (pydiv_zero _ _ Hs). exists ZeroDivisionError. reflexivity.
    + destruct Hz as [Hz | Hz]; [contradiction|].
      rewrite (pydiv_nonzero (0.6 * sum ss) _ Hs). cbn [bind].
      rewrite (pydiv_zero _ _ Hz). exists ZeroDivisionError. reflexivity.
Qed.

Lemma zero_totals_raise_witness :
  exists e : exn,
    calculate_cartel_power (mkCartel 2 [0; 0] [100; 200] 1000) [0%nat] = Err e.
Proof.
  apply (proj2 zero_totals_raise (mkCartel 2 [0; 0] [100; 200] 1000) [0%nat]).
  left. reflexivity.
Defined.

(** C6 as stated fails: on the empty population both the power of the empty
    cartel and the optimizer (here with the exhaustive solver) raise
    [ZeroDivisionError] instead of returning a zero share or a result. *)
Lemma empty_population_counterexample :
  calculate_cartel_power (empty_population 1000) [] = Err ZeroDivisionError
  /\ find_minimum_cartel exhaustive_solve (empty_population 1000)
     = Err ZeroDivisionError.
Proof.
  split; reflexivity.
Qed.

(** ** Enumeration, sorting and assignments *)

Lemma insert_by_cost_In (e x : CartelEntry) (es : list CartelEntry) :
  In x (insert_by_cost e es) <-> x = e \/ In x es.
Proof.
  induction es as [|e' es IH]; simpl.
  - intuition congruence.
  - destruct (Qle_bool (cost e) (cost e')); simpl.
    + intuition congruence.
    + rewrite IH. intuition congruence.
Qed.

Lemma sorted_by_cost_In (x : CartelEntry) (es : list CartelEntry) :
  In x (sorted_by_cost es) <-> In x es.
Proof.
  induction es as [|e es IH]; simpl.
  - reflexivity.
  - rewrite insert_by_cost_In, IH. intuition congruence.
Qed.

Lemma keep_some_In {A : Type} (a : A) (xs : list (option A)) :
  In a (keep_some xs) <-> In (Some a) xs.
Proof.
  induction xs as [|[x|] xs IH]; simpl.
  - reflexivity.
  - rewrite IH. intuition congruence.
  - rewrite IH. intuition congruence.
Qed.

(** Every combination of [seq start len] is the set of members of some
    assignment to [len] variables. *)
Lemma combinations_mask (len start k : nat) (c : list nat) :
  In c (combinations (seq start len) k) ->
  exists m, length m = len /\ c = mask_members m start.
Proof.
  revert start k c. induction len as [|len IH]; intros start k c Hin.
  - exists []. split; [reflexivity|].
    destruct k; simpl in Hin; [|destruct Hin].
    destruct Hin as [<- | []]. reflexivity.
  - destruct k as [|k].
    + simpl in Hin. destruct Hin as [<- | []].
      exists (repeat false (S len)). split; [apply repeat_length|].
      clear IH. generalize (S len) as j. intro j. revert start.
      induction j as [|j IHj]; intro start; simpl; [reflexivity | apply IHj].
    + cbn [seq combinations] in Hin. apply in_app_or in Hin.
      destruct Hin as [Hin | Hin].
      * apply in_map_iff in Hin. destruct Hin as [c' [<- Hc']].
        destruct (IH _ _ _ Hc') as [m [Hlen ->]].
        exists (true :: m). split; [simpl; congruence | reflexivity].
      * destruct (IH _ _ _ Hin) as [m [Hlen ->]].
        exists (false :: m). split; [simpl; congruence | reflexivity].
Qed.

Lemma candidate_cartels_mask (self : LegislatorCartel) (c : list nat) :
  In c (candidate_cartels self) ->
  exists m, length m = n self /\ c = mask_members m 0.
Proof.
  unfold candidate_cartels. intro Hin. apply in_flat_map in Hin.
  destruct Hin as [k [_ Hc]]. exact (combinations_mask _ _ _ _ Hc).
Qed.

(** Reading the entries an assignment selects. *)
Lemma mapM_getitem_mask {A : Type} (m : list bool) (xs pre : list A) :
  length m = length xs ->
  mapM (getitem (pre ++ xs)) (mask_members m (length pre)) = Ok (selected xs m).
Proof.
  revert xs pre. induction m as [|b m IH]; intros xs pre Hlen.
  - destruct xs; reflexivity.
  - destruct xs as [|x xs]; [discriminate|]. simpl in Hlen.
    injection Hlen as Hlen.
    assert (Hnext : mapM (getitem (pre ++ x :: xs))
                         (mask_members m (S (length pre)))
                    = Ok (selected xs m)).
    { replace (pre ++ x :: xs) with ((pre ++ [x]) ++ xs)
        by (rewrite <- app_assoc; reflexivity).
      replace (S (length pre)) with (length (pre ++ [x]))
        by (rewrite length_app; simpl; lia).
      apply IH. exact Hlen. }
    destruct b; cbn [mask_members selected mapM].
    + unfold getitem at 1. rewrite nth_error_app2 by lia.
      rewrite Nat.sub_diag. cbn [nth_error bind].
      rewrite Hnext. reflexivity.
    + exact Hnext.
Qed.

Lemma mapM_getitem_range {A : Type} (xs pre : list A) :
  mapM (getitem (pre ++ xs)) (seq (length pre) (length xs)) = Ok xs.
Proof.
  revert pre. induction xs as [|x xs IH]; intro pre; [reflexivity|].
  cbn [length seq mapM].
  unfold getitem at 1. rewrite nth_error_app2 by lia.
  rewrite Nat.sub_diag. cbn [nth_error bind].
  replace (pre ++ x :: xs) with ((pre ++ [x]) ++ xs)
    by (rewrite <- app_assoc; reflexivity).
  replace (S (length pre)) with (length (pre ++ [x]))
    by (rewrite length_app; simpl; lia).
  rewrite IH. reflexivity.
Qed.




Lemma sum_selected (xs : list Q) (m : list bool) :
  sum (selected xs m) == dot xs m.
Proof.
  revert m. induction xs as [|x xs IH]; intros [|b m]; simpl;
    try (rewrite sum_nil; reflexivity).
  destruct b.
  - rewrite sum_cons, IH. reflexivity.
  - rewrite IH. ring.
Qed.

Lemma dot_map_scale (a t : Q) (xs : list Q) (m : list bool) :
  dot (map (fun x => a * x / t) xs) m == a * dot xs m / t.
Proof.
  revert m. induction xs as [|x xs IH]; intros [|b m]; simpl;
    try (unfold Qdiv; ring).
  rewrite IH. destruct b; unfold Qdiv; ring.
Qed.

Lemma dot_combine_plus (xs ys : list Q) (m : list bool) :
  length xs = length ys ->
  dot (map (fun st => fst st + snd st) (combine xs ys)) m ==
  dot xs m + dot ys m.
Proof.
  revert ys m. induction xs as [|x xs IH]; intros [|y ys] m Hlen;
    try discriminate.
  - destruct m; simpl; ring.
  - injection Hlen as Hlen. destruct m as [|b m]; simpl; [ring|].
    rewrite (IH ys m Hlen). destruct b; simpl; ring.
Qed.


(** ** The power of the coalition an assignment selects *)

Section MaskPower.

Variable self : LegislatorCartel.
Hypothesis scores_length : length (scores self) = n self.
Hypothesis reputations_length : length (reputations self) = n self.

Variable m : list bool.
Hypothesis m_length : length m = n self.

Lemma mask_scores :
  mapM (getitem (scores self)) (mask_members m 0) = Ok (selected (scores self) m).
Proof.
  apply (mapM_getitem_mask m (scores self) []). congruence.
Qed.

Lemma mask_reputations :
  mapM (getitem (reputations self)) (mask_members m 0)
  = Ok (selected (reputations self) m).
Proof.
  apply (mapM_getitem_mask m (reputations self) []). congruence.
Qed.

(** The blended share of the selected legislators. *)
Lemma mask_power_Ok (pd : PowerData) :
  calculate_cartel_power self (mask_members m 0) = Ok pd ->
  ~ sum (scores self) == 0 /\ ~ sum (reputations self) == 0 /\
  voting_power pd =
    0.6 * sum (selected (scores self) m) / sum (scores self)
    + 0.4 * sum (selected (reputations self) m) / sum (reputations self) /\
  can_override pd = geb (voting_power pd) OVERRIDE_THRESHOLD.
Proof.
  unfold calculate_cartel_power.
  rewrite mask_scores, mask_reputations. cbn [bind].
  destruct (pydiv (0.6 * _) _) as [q1|] eqn:E1; [|discriminate].
  apply pydiv_Ok in E1. destruct E1 as [Hs ->]. cbn [bind].
  destruct (pydiv (0.4 * _) _) as [q2|] eqn:E2; [|discriminate].
  apply pydiv_Ok in E2. destruct E2 as [Hr ->]. cbn [bind].
  rewrite (pydiv_nonzero _ _ Hs), (pydiv_nonzero _ _ Hr). cbn [bind].
  intro H. injection H as <-. cbn. auto.
Qed.

Lemma mask_power_returns :
  ~ sum (scores self) == 0 -> ~ sum (reputations self) == 0 ->
  exists pd, calculate_cartel_power self (mask_members m 0) = Ok pd.
Proof.
  intros Hs Hr. unfold calculate_cartel_power.
  rewrite mask_scores, mask_reputations. cbn [bind].
  rewrite !(pydiv_nonzero _ _ Hs), !(pydiv_nonzero _ _ Hr). cbn [bind].
  eexists. reflexivity.
Qed.

(** The program of [find_minimum_cartel], coefficient by coefficient. *)
Lemma lp_problem_Ok :
  ~ sum (scores self) == 0 -> ~ sum (reputations self) == 0 ->
  lp_problem self =
  Ok {| objective :=
          map (fun r => market_value self * 0.025 * inject_Z TERM_LENGTH_WEEKS
                        + r * SLASH_PENALTY * 0.30) (reputations self);
        constraint_lhs :=
          map (fun st => fst st + snd st)
              (combine
                 (map (fun s => 0.6 * s / sum (scores self)) (scores self))
                 (map (fun r => 0.4 * r / sum (reputations self))
                      (reputations self)));
        constraint_rhs := OVERRIDE_THRESHOLD;
        registered :=
          mentioned
            (map (fun r => market_value self * 0.025
                           * inject_Z TERM_LENGTH_WEEKS
                           + r * SLASH_PENALTY * 0.30) (reputations self))
            (map (fun s => 0.6 * s / sum (scores self)) (scores self))
            (map (fun r => 0.4 * r / sum (reputations self))
                 (reputations self)) |}.
Proof.
  intros Hs Hr. unfold lp_problem, range.
  assert (Hrange_s : mapM (getitem (scores self)) (seq 0 (n self))
                     = Ok (scores self)).
  { rewrite <- scores_length. apply (mapM_getitem_range (scores self) []). }
  assert (Hrange_r : mapM (getitem (reputations self)) (seq 0 (n self))
                     = Ok (reputations self)).
  { rewrite <- reputations_length.
    apply (mapM_getitem_range (reputations self) []). }
  rewrite (mapM_getitem_then _ _ _
             (fun r => market_value self * 0.025 * inject_Z TERM_LENGTH_WEEKS
                       + r * SLASH_PENALTY * 0.30)
             (lp_cost self) (fun i => eq_refl) Hrange_r).
  cbn [bind].
  rewrite (mapM_getitem_then (scores self) _ _
             (fun s => 0.6 * s / sum (scores self)) _) with (2 := Hrange_s).
  2:{ intro i. destruct (getitem (scores self) i); [|reflexivity].
      cbn [bind]. rewrite (pydiv_nonzero _ _ Hs). reflexivity. }
  cbn [bind].
  rewrite (mapM_getitem_then (reputations self) _ _
             (fun r => 0.4 * r / sum (reputations self)) _) with (2 := Hrange_r).
  2:{ intro i. destruct (getitem (reputations self) i); [|reflexivity].
      cbn [bind]. rewrite (pydiv_nonzero _ _ Hr). reflexivity. }
  reflexivity.
Qed.

(** The constraint's left-hand side at [m] is the blended share of the
    legislators that [m] selects. *)
Lemma constraint_lhs_is_power :
  dot (map (fun st => fst st + snd st)
           (combine
              (map (fun s => 0.6 * s / sum (scores self)) (scores self))
              (map (fun r => 0.4 * r / sum (reputations self))
                   (reputations self)))) m ==
  0.6 * sum (selected (scores self) m) / sum (scores self)
  + 0.4 * sum (selected (reputations self) m) / sum (reputations self).
Proof.
  rewrite dot_combine_plus
    by (rewrite !length_map; congruence).
  rewrite !dot_map_scale, !sum_selected. reflexivity.
Qed.

End MaskPower.

(** ** Reading the solver's answer *)

Lemma select_members_assignment (sol : LpSolution) (m : list bool)
    (pre : list (option Q)) :
  varValues sol = pre ++ assignment_values m ->
  select_members sol (seq (length pre) (length m))
  = Ok (mask_members m (length pre)).
Proof.
  revert pre. induction m as [|b m IH]; intros pre Hv; [reflexivity|].
  cbn [length seq select_members].
  assert (Hb : varValue sol (length pre) = Some (if b then 1 else 0)).
  { unfold varValue. rewrite Hv. rewrite app_nth2 by lia.
    rewrite Nat.sub_diag. reflexivity. }
  rewrite Hb.
  assert (Hnext : select_members sol (seq (S (length pre)) (length m))
                  = Ok (mask_members m (S (length pre)))).
  { replace (S (length pre))
      with (length (pre ++ [Some (if b then 1 else 0)]))
      by (rewrite length_app; simpl; lia).
    apply IH. rewrite Hv, <- app_assoc. reflexivity. }
  rewrite Hnext. destruct b; reflexivity.
Qed.


(** ** Which variables the program holds *)

Lemma nonzero_true (q : Q) : nonzero q = true <-> ~ q == 0.
Proof.
  unfold nonzero. rewrite negb_true_iff. split.
  - intros H E. apply Qeq_bool_iff in E. congruence.
  - intro H. destruct (Qeq_bool q 0) eqn:E; [|reflexivity].
    apply Qeq_bool_iff in E. contradiction.
Qed.


Lemma mentioned_all (f g h : Q -> Q) (ss rs : list Q) :
  length ss = length rs ->
  (forall s r, In (s, r) (combine ss rs) ->
     nonzero (f r) || nonzero (g s) || nonzero (h r) = true) ->
  Forall (fun b : bool => b = true)
         (mentioned (map f rs) (map g ss) (map h rs)).
Proof.
  revert rs. induction ss as [|s ss IH]; intros [|r rs] Hlen Hall;
    try discriminate; [constructor|].
  injection Hlen as Hlen. unfold mentioned.
  cbn [map combine fst snd]. constructor.
  - apply Hall. left. reflexivity.
  - apply IH; [exact Hlen|]. intros s' r' Hin. apply Hall. right. exact Hin.
Qed.

(** With every variable in the program, the solver's answer is a plain 0/1
    assignment. *)
Lemma solution_values_all (reg m : list bool) :
  length reg = length m -> Forall (fun b : bool => b = true) reg ->
  solution_values reg m = assignment_values m.
Proof.
  revert m. induction reg as [|r reg IH]; intros [|b m] Hlen Hall;
    try discriminate; [reflexivity|].
  inversion Hall as [|r' reg' Hr Hreg]; subst. injection Hlen as Hlen.
  unfold solution_values, assignment_values.
  cbn [combine map fst snd]. f_equal. apply IH; assumption.
Qed.

(** Every legislator's variable enters the program of [find_minimum_cartel]
    when the market has a value or each legislator has a score or a
    reputation. *)
Lemma lp_variables_registered (self : LegislatorCartel) :
  length (scores self) = length (reputations self) ->
  ~ sum (scores self) == 0 -> ~ sum (reputations self) == 0 ->
  (~ market_value self == 0
   \/ Forall (fun sr => ~ (fst sr == 0 /\ snd sr == 0))
             (combine (scores self) (reputations self))) ->
  Forall (fun b : bool => b = true)
    (mentioned
       (map (fun r => market_value self * 0.025 * inject_Z TERM_LENGTH_WEEKS
                      + r * SLASH_PENALTY * 0.30) (reputations self))
       (map (fun s => 0.6 * s / sum (scores self)) (scores self))
       (map (fun r => 0.4 * r / sum (reputations self)) (reputations self))).
Proof.
  intros Hlen Hs Hr Hreg. apply mentioned_all; [exact Hlen|].
  intros s r Hin.
  assert (Hstep : forall x t : Q, ~ t == 0 -> ~ x == 0 -> ~ x / t == 0).
  { intros x t Ht Hx E. apply Hx.
    assert (Hx' : x == x / t * t) by (field; exact Ht).
    rewrite Hx', E. ring. }
  destruct (Qeq_dec r 0) as [Er | Er].
  - destruct (Qeq_dec s 0) as [Es | Es].
    + (* neither score nor reputation: only the cost can mention it *)
      destruct Hreg as [Hmv | Hall].
      * assert (Hcost : nonzero (market_value self * 0.025
                                 * inject_Z TERM_LENGTH_WEEKS
                                 + r * SLASH_PENALTY * 0.30) = true).
        { apply nonzero_true. intro E. apply Hmv.
          change (inject_Z TERM_LENGTH_WEEKS) with 12 in E.
          unfold SLASH_PENALTY in E. lra. }
        rewrite Hcost. reflexivity.
      * rewrite Forall_forall in Hall. exfalso.
        apply (Hall (s, r) Hin). split; assumption.
    + assert (Hterm : nonzero (0.6 * s / sum (scores self)) = true).
      { apply nonzero_true. apply Hstep; [exact Hs|]. intro E. apply Es. lra. }
      rewrite Hterm. apply orb_true_iff. left. apply orb_true_r.
  - assert (Hterm : nonzero (0.4 * r / sum (reputations self)) = true).
    { apply nonzero_true. apply Hstep; [exact Hr|]. intro E. apply Er. lra. }
    rewrite Hterm. apply orb_true_r.
Qed.


(** ** The two strategies compared *)

Section Strategies.

Variable solve : Solver.
Hypothesis solve_exact : exact_solver solve.

Variable self : LegislatorCartel.
Hypothesis scores_length : length (scores self) = n self.
Hypothesis reputations_length : length (reputations self) = n self.
Hypothesis market_value_nonneg : 0 <= market_value self.
Hypothesis reputations_nonneg : Forall (Qle 0) (reputations self).
Hypothesis every_variable_mentioned :
  ~ market_value self == 0
  \/ Forall (fun sr => ~ (fst sr == 0 /\ snd sr == 0))
            (combine (scores self) (reputations self)).



End Strategies.

(** ** The exhaustive solver is exact *)


Lemma all_assignments_complete (m : list bool) :
  In m (all_assignments (length m)).
Proof.
  induction m as [|b m IH]; simpl.
  - left. reflexivity.
  - apply in_or_app. destruct b; [right | left]; apply in_map; exact IH.
Qed.






(** The failure does not depend on the solver: every exact solver leaves
    the seventh variable without a value. *)
Lemma idle_seventh_raises (solve : Solver) :
  exact_solver solve ->
  find_minimum_cartel solve idle_seventh = Err TypeError.
Proof.
  intro Hexact.
  assert (Hp : exists prob, lp_problem idle_seventh = Ok prob)
    by (eexists; vm_compute; reflexivity).
  destruct Hp as [prob Hprob].
  pose proof Hprob as Hprob'. vm_compute in Hprob'.
  injection Hprob' as <-.
  match type of Hprob with _ = Ok ?p => set (prob := p) in * end.
  destruct (Hexact prob eq_refl eq_refl) as [Hopt _].
  assert (Hfull : feasible prob (repeat true 7) = true)
    by (vm_compute; reflexivity).
  destruct (Hopt (repeat true 7) eq_refl Hfull)
    as [_ [m0 [Hm0 [Hvals _]]]].
  unfold find_minimum_cartel. rewrite Hprob. cbn [bind].
  assert (Hsel : select_members (solve prob) (range (n idle_seventh))
                 = Err TypeError).
  { destruct m0 as [|b0 [|b1 [|b2 [|b3 [|b4 [|b5 [|b6 [|b7 m0]]]]]]]];
      try discriminate Hm0.
    change (range (n idle_seventh)) with [0; 1; 2; 3; 4; 5; 6]%nat.
    cbn [select_members]. unfold varValue. rewrite Hvals.
    destruct b0, b1, b2, b3, b4, b5; reflexivity. }
  rewrite Hsel. reflexivity.
Qed.

(** ** Seven equal legislators *)

(** Five of the seven hold 5/7 of the power and can override; four cannot. *)
Lemma uniform7_power (mv : Q) :
  forallb (fun c => match calculate_cartel_power (uniform7 mv) c with
                    | Ok pd => can_override pd
                                && Qeq_bool (voting_power pd) (5 # 7)
                    | Err _ => false
                    end)
          (combinations (range 7) 5) = true
  /\ forallb (fun c => match calculate_cartel_power (uniform7 mv) c with
                       | Ok pd => negb (can_override pd)
                                  && Qeq_bool (voting_power pd) (4 # 7)
                       | Err _ => false
                       end)
             (combinations (range 7) 4) = true.
Proof.
  split; vm_compute; reflexivity.
Qed.

(** C4, the exact enumeration on the scenario: [brute_force_cartels] starts
    at coalitions of [MIN_LEGISLATORS] = 7 members, so for seven equal
    legislators it returns the full coalition of size 7 and nothing else;
    no coalition of size 5 is ever examined. *)
Theorem uniform7_brute_force (mv : Q) :
  candidate_cartels (uniform7 mv) = [[0; 1; 2; 3; 4; 5; 6]%nat]
  /\ exists c p : Q,
       brute_force_cartels (uniform7 mv)
       = Ok [{| size := 7;
                members := [0; 1; 2; 3; 4; 5; 6]%nat;
                cost := c;
                entry_power := p |}]
       /\ p == 1.
Proof.
  split; [reflexivity|].
  eexists. eexists. split; [reflexivity|]. reflexivity.
Qed.

(** A constant objective weighs an assignment by the number of legislators
    it selects. *)
Lemma dot_repeat (c : Q) (m : list bool) (start : nat) :
  dot (repeat c (length m)) m
  == inject_Z (Z.of_nat (length (mask_members m start))) * c.
Proof.
  revert start. induction m as [|b m IH]; intro start.
  - cbn. ring.
  - cbn [length repeat dot mask_members]. rewrite (IH (S start)).
    destruct b; [|ring].
    cbn [length]. rewrite Nat2Z.inj_succ. unfold Z.succ.
    rewrite inject_Z_plus. ring.
Qed.

(** On the same scenario the LP strategy, run with any exact solver, does
    return a coalition of five members. *)
Lemma uniform7_lp_size (solve : Solver) (mv : Q) :
  exact_solver solve -> 0 <= mv ->
  exists r, find_minimum_cartel solve (uniform7 mv) = Ok r
            /\ min_cartel_size r = 5%nat
            /\ can_override (power r) = true.
Proof.
  intros Hexact Hmv.
  assert (Hs : ~ sum (scores (uniform7 mv)) == 0) by discriminate.
  assert (Hr : ~ sum (reputations (uniform7 mv)) == 0) by discriminate.
  pose proof (lp_problem_Ok (uniform7 mv) eq_refl eq_refl Hs Hr) as Hprob.
  set (prob := {| objective := _; constraint_lhs := _; constraint_rhs := _;
                  registered := _ |})
    in Hprob.
  assert (Hall : forallb (fun m => implb (feasible prob m)
                                         (5 <=? length (mask_members m 0))%nat)
                         (all_assignments 7) = true)
    by (vm_compute; reflexivity).
  assert (Hfull : feasible prob (repeat true 7) = true)
    by (vm_compute; reflexivity).
  assert (Hreg : Forall (fun x : bool => x = true) (registered prob)).
  { unfold prob. cbn [registered].
    apply lp_variables_registered; [reflexivity | exact Hs | exact Hr|].
    right. repeat constructor; intros [H _]; discriminate H. }
  destruct (Hexact prob eq_refl eq_refl) as [Hopt _].
  destruct (Hopt (repeat true 7) eq_refl Hfull)
    as [_ [m0 [Hm0 [Hvals [Hfeas0 Hleast]]]]].
  change (length (objective prob)) with 7%nat in Hm0, Hleast.
  rewrite solution_values_all in Hvals by (exact Hreg || exact (eq_sym Hm0)).
  assert (Hsel : select_members (solve prob) (range 7) = Ok (mask_members m0 0)).
  { unfold range. rewrite <- Hm0.
    apply (select_members_assignment (solve prob) m0 []). exact Hvals. }
  destruct (mask_power_returns (uniform7 mv) eq_refl eq_refl m0 Hm0 Hs Hr)
    as [pd0 Epd0].
  destruct (mask_power_Ok (uniform7 mv) eq_refl eq_refl m0 Hm0 pd0 Epd0)
    as [_ [_ [Hvp0 Hco0]]].
  exists {| cartel_members := mask_members m0 0;
            min_cartel_size := length (mask_members m0 0);
            total_cost := value (objective prob) (varValues (solve prob));
            power := pd0 |}.
  split; [|split].
  - unfold find_minimum_cartel. rewrite Hprob. cbn [bind].
    change (n (uniform7 mv)) with 7%nat.
    rewrite Hsel. cbn [bind]. rewrite Epd0. reflexivity.
  - cbn [min_cartel_size].
    (* at least five: fewer do not meet the constraint *)
    assert (Hge : (5 <= length (mask_members m0 0))%nat).
    { rewrite forallb_forall in Hall.
      assert (Hin : In m0 (all_assignments 7))
        by (rewrite <- Hm0; apply all_assignments_complete).
      specialize (Hall m0 Hin). rewrite Hfeas0 in Hall.
      apply Nat.leb_le. exact Hall. }
    (* at most five: five already meet it at a lower cost *)
    assert (Hfive : feasible prob [true; true; true; true; true; false; false]
                    = true) by (vm_compute; reflexivity).
    pose proof (Hleast [true; true; true; true; true; false; false]
                  eq_refl Hfive) as H5.
    set (c := mv * 0.025 * inject_Z TERM_LENGTH_WEEKS + 100 * SLASH_PENALTY * 0.30).
    change (objective prob) with (repeat c 7) in H5.
    rewrite <- Hm0 in H5 at 1.
    rewrite (dot_repeat c m0 0) in H5.
    change (repeat c 7)
      with (repeat c (length [true; true; true; true; true; false; false]))
      in H5.
    rewrite (dot_repeat c _ 0) in H5.
    change (inject_Z (Z.of_nat (length (mask_members
              [true; true; true; true; true; false; false] 0))))
      with (inject_Z 5) in H5.
    assert (Hc : 0 < c).
    { unfold c. change (inject_Z TERM_LENGTH_WEEKS) with 12.
      unfold SLASH_PENALTY. lra. }
    apply (proj1 (Qmult_le_r _ _ _ Hc)) in H5.
    assert (H6 : inject_Z (Z.of_nat (length (mask_members m0 0))) <= inject_Z 5)
      by exact H5.
    rewrite <- Zle_Qle in H6. lia.
  - cbn [power]. rewrite Hco0. apply (geb_true _ OVERRIDE_THRESHOLD).
    rewrite Hvp0.
    rewrite <- (constraint_lhs_is_power (uniform7 mv) eq_refl eq_refl m0 Hm0).
    apply Qle_bool_iff. exact Hfeas0.
Qed.

(** * Further properties of the scripts *)

(** ** Brier scores *)

Import PredictionMarkets.

Lemma sum_unit_bounds (xs : list Q) :
  Forall (fun x => 0 <= x <= 1) xs ->
  0 <= sum xs <= inject_Z (Z.of_nat (length xs)).
Proof.
  intro Hall. induction Hall as [|x xs Hx _ IH].
  - rewrite sum_nil. split; apply Qle_refl.
  - destruct Hx as [Hx0 Hx1]. destruct IH as [IH0 IH1].
    rewrite sum_cons. cbn [length]. rewrite Nat2Z.inj_succ. unfold Z.succ.
    rewrite inject_Z_plus. change (inject_Z 1) with 1. split; lra.
Qed.

Lemma sum_zero_nonneg (xs : list Q) :
  Forall (Qle 0) xs -> sum xs == 0 -> Forall (fun x => x == 0) xs.
Proof.
  induction 1 as [|x xs Hx Hxs IH]; intro Hsum; constructor.
  - rewrite sum_cons in Hsum. pose proof (sum_nonneg xs Hxs). lra.
  - apply IH. rewrite sum_cons in Hsum. pose proof (sum_nonneg xs Hxs). lra.
Qed.

Lemma sum_all_zero (xs : list Q) :
  Forall (fun x => x == 0) xs -> sum xs == 0.
Proof.
  induction 1 as [|x xs Hx _ IH].
  - rewrite sum_nil. reflexivity.
  - rewrite sum_cons, Hx, IH. ring.
Qed.

Lemma square_nonneg (d : Q) : 0 <= d ^ 2.
Proof.
  change (d ^ 2) with (d * d).
  destruct (Qlt_le_dec d 0) as [Hneg | Hpos].
  - setoid_replace (d * d) with ((- d) * (- d)) by ring.
    apply Qmult_le_0_compat; lra.
  - apply Qmult_le_0_compat; exact Hpos.
Qed.

Lemma square_zero (d : Q) : d ^ 2 == 0 <-> d == 0.
Proof.
  change (d ^ 2) with (d * d). split; intro H.
  - destruct (Qeq_dec d 0) as [Hz | Hnz]; [exact Hz|].
    exfalso. apply Hnz.
    apply Qmult_integral in H. destruct H; assumption.
  - rewrite H. ring.
Qed.

Lemma square_unit (p o : Q) :
  0 <= p <= 1 -> 0 <= o <= 1 -> (p - o) ^ 2 <= 1.
Proof.
  intros [Hp0 Hp1] [Ho0 Ho1]. change ((p - o) ^ 2) with ((p - o) * (p - o)).
  assert (H : 0 <= (1 - (p - o)) * (1 + (p - o)))
    by (apply Qmult_le_0_compat; lra).
  setoid_replace ((1 - (p - o)) * (1 + (p - o)))
    with (1 - (p - o) * (p - o)) in H by ring.
  lra.
Qed.

Lemma brier_score_unfold (predictions outcomes : list Q) :
  length predictions = length outcomes -> predictions <> [] ->
  brier_score predictions outcomes =
  inr (sum (map (fun po => (fst po - snd po) ^ 2)
                (combine predictions outcomes))
       / inject_Z (Z.of_nat (length predictions))).
Proof.
  intros Hlen Hne. unfold brier_score.
  rewrite Hlen, Nat.eqb_refl. cbn [negb].
  rewrite length_map, length_combine, <- Hlen, Nat.min_id.
  rewrite pydiv_nonzero; [reflexivity|].
  intro Hz. destruct predictions as [|p ps]; [contradiction|].
  cbn [length] in Hz. rewrite Nat2Z.inj_succ in Hz.
  assert (0 < inject_Z (Z.succ (Z.of_nat (length ps)))).
  { change 0 with (inject_Z 0). rewrite <- Zlt_Qlt. lia. }
  lra.
Qed.

Lemma brier_score_inr (predictions outcomes : list Q) (q : Q) :
  brier_score predictions outcomes = inr q ->
  length predictions = length outcomes /\ predictions <> [].
Proof.
  unfold brier_score. intro H.
  destruct (length predictions =? length outcomes)%nat eqn:E;
    [|discriminate H].
  apply Nat.eqb_eq in E. split; [exact E|].
  intros ->. destruct outcomes; [|discriminate E]. discriminate H.
Qed.

(** X1: [brier_score] raises [ValueError] exactly when the two lists differ
    in length, raises the division error exactly when both are empty, and
    returns a score in every other case. *)
Theorem brier_score_errors (predictions outcomes : list Q) :
  (brier_score predictions outcomes = inl ValueError
   <-> length predictions <> length outcomes)
  /\ (brier_score predictions outcomes = inl EmptyDivision
      <-> predictions = [] /\ outcomes = [])
  /\ ((exists q, brier_score predictions outcomes = inr q)
      <-> length predictions = length outcomes /\ predictions <> []).
Proof.
  destruct (Nat.eq_dec (length predictions) (length outcomes)) as [Heq | Hne].
  - destruct predictions as [|p ps].
    + destruct outcomes; [|discriminate Heq].
      split; [|split]; split.
      * intro H. discriminate H.
      * intro H. exfalso. apply H. reflexivity.
      * intros _. split; reflexivity.
      * intros _. reflexivity.
      * intros [q Hq]. discriminate Hq.
      * intros [_ H]. exfalso. apply H. reflexivity.
    + assert (Hcons : p :: ps <> []) by discriminate.
      rewrite (brier_score_unfold _ _ Heq Hcons).
      split; [|split]; split.
      * intro H. discriminate H.
      * intro H. contradiction.
      * intro H. discriminate H.
      * intros [H _]. discriminate H.
      * intros _. split; assumption.
      * intros _. eexists. reflexivity.
  - assert (Hv : brier_score predictions outcomes = inl ValueError).
    { unfold brier_score. apply Nat.eqb_neq in Hne. rewrite Hne. reflexivity. }
    rewrite Hv. split; [|split]; split.
    + intros _. exact Hne.
    + intros _. reflexivity.
    + intro H. discriminate H.
    + intros [-> ->]. exfalso. apply Hne. reflexivity.
    + intros [q Hq]. discriminate Hq.
    + intros [H _]. contradiction.
Qed.

Lemma brier_score_errors_witness :
  brier_score [0.9; 0.2] [1] = inl ValueError
  /\ brier_score [] [] = inl EmptyDivision
  /\ exists q, brier_score [0.9; 0.2] [1; 0] = inr q.
Proof.
  split; [|split].
  - apply (proj1 (brier_score_errors [0.9; 0.2] [1])). discriminate.
  - apply (proj1 (proj2 (brier_score_errors [] []))). split; reflexivity.
  - apply (proj2 (proj2 (brier_score_errors [0.9; 0.2] [1; 0]))).
    split; [reflexivity | discriminate].
Defined.

(** X2: on as many probabilities in [0,1] as outcomes in [0,1] (at least
    one), the Brier score is returned and lies between 0 and 1. *)
Theorem brier_score_bounds (predictions outcomes : list Q) :
  length predictions = length outcomes -> predictions <> [] ->
  Forall (fun p => 0 <= p <= 1) predictions ->
  Forall (fun o => 0 <= o <= 1) outcomes ->
  exists q, brier_score predictions outcomes = inr q /\ 0 <= q <= 1.
Proof.
  intros Hlen Hne Hp Ho.
  rewrite (brier_score_unfold _ _ Hlen Hne). eexists. split; [reflexivity|].
  set (errs := map (fun po => (fst po - snd po) ^ 2)
                   (combine predictions outcomes)).
  assert (Herrs : Forall (fun x => 0 <= x <= 1) errs).
  { unfold errs. apply Forall_map. apply Forall_forall.
    intros [p o] Hin. cbn [fst snd].
    pose proof (in_combine_l _ _ _ _ Hin) as Hpin.
    pose proof (in_combine_r _ _ _ _ Hin) as Hoin.
    rewrite Forall_forall in Hp, Ho.
    split; [apply square_nonneg | apply square_unit; auto]. }
  destruct (sum_unit_bounds errs Herrs) as [H0 H1].
  assert (Hn : length errs = length predictions).
  { unfold errs. rewrite length_map, length_combine, <- Hlen. apply Nat.min_id. }
  rewrite Hn in H1.
  assert (Hpos : 0 < inject_Z (Z.of_nat (length predictions))).
  { change 0 with (inject_Z 0). rewrite <- Zlt_Qlt.
    destruct predictions; [contradiction | cbn [length]; lia]. }
  split.
  - apply Qle_shift_div_l; [exact Hpos | lra].
  - apply Qle_shift_div_r; [exact Hpos | lra].
Qed.

Lemma brier_score_bounds_witness :
  exists q, brier_score [0.9; 0.2; 0.5] [1; 0; 1] = inr q /\ 0 <= q <= 1.
Proof.
  apply (brier_score_bounds [0.9; 0.2; 0.5] [1; 0; 1]).
  - reflexivity.
  - discriminate.
  - repeat constructor; discriminate.
  - repeat constructor; discriminate.
Defined.

(** X3: a returned Brier score is zero exactly when every prediction equals
    its outcome. *)
Theorem brier_score_zero_iff_perfect (predictions outcomes : list Q) (q : Q) :
  brier_score predictions outcomes = inr q ->
  (q == 0 <-> Forall2 Qeq predictions outcomes).
Proof.
  intro Hq.
  destruct (brier_score_inr _ _ _ Hq) as [Hlen Hne].
  rewrite (brier_score_unfold _ _ Hlen Hne) in Hq. injection Hq as <-.
  set (errs := map (fun po => (fst po - snd po) ^ 2)
                   (combine predictions outcomes)).
  assert (Hpos : 0 < inject_Z (Z.of_nat (length predictions))).
  { change 0 with (inject_Z 0). rewrite <- Zlt_Qlt.
    destruct predictions; [contradiction | cbn [length]; lia]. }
  assert (Hdiv : sum errs / inject_Z (Z.of_nat (length predictions)) == 0
                 <-> sum errs == 0).
  { split; intro H.
    - assert (Hm : sum errs
                   == sum errs / inject_Z (Z.of_nat (length predictions))
                      * inject_Z (Z.of_nat (length predictions)))
        by (field; lra).
      rewrite Hm, H. ring.
    - rewrite H. field. lra. }
  etransitivity; [exact Hdiv|]. clear Hdiv Hpos Hne. unfold errs. clear errs.
  revert outcomes Hlen.
  induction predictions as [|p ps IH]; intros [|o os] Hlen;
    try discriminate Hlen.
  - cbn [combine map]. rewrite sum_nil. split; [constructor | reflexivity].
  - injection Hlen as Hlen. cbn [combine map fst snd].
    assert (Hnn : Forall (Qle 0)
                    (map (fun po => (fst po - snd po) ^ 2) (combine ps os))).
    { apply Forall_map. apply Forall_forall. intros x _. apply square_nonneg. }
    split; intro H.
    + rewrite sum_cons in H.
      pose proof (square_nonneg (p - o)) as Hsq.
      pose proof (sum_nonneg _ Hnn) as Hs.
      assert (Hz : (p - o) ^ 2 == 0).
      { revert H Hsq Hs. generalize ((p - o) ^ 2). intros sq H Hsq Hs. lra. }
      constructor.
      * apply (proj1 (square_zero _)) in Hz. lra.
      * apply (IH os Hlen). rewrite Hz in H. lra.
    + inversion H as [|? ? ? ? Hpo Hrest]; subst.
      rewrite sum_cons. apply (IH os Hlen) in Hrest. rewrite Hrest.
      assert (Hz : (p - o) ^ 2 == 0) by (apply (proj2 (square_zero _)); lra).
      rewrite Hz. ring.
Qed.

Lemma brier_score_zero_iff_perfect_witness :
  exists q, brier_score [1; 0; 1] [1; 0; 1] = inr q /\ q == 0.
Proof.
  eexists. split; [reflexivity|].
  apply (proj2 (brier_score_zero_iff_perfect [1; 0; 1] [1; 0; 1] _ eq_refl)).
  repeat constructor.
Defined.

(** ** The two market classes *)

Lemma ltb_true (a b : Q) : ltb a b = true <-> a < b.
Proof.
  unfold ltb. rewrite negb_true_iff. apply (geb_false a b).
Qed.

Lemma tier_fraction_range (rep acc : Q) :
  0.01 <= PredictionAccuracy.calculate_position_limit rep acc <= 0.05.
Proof.
  unfold PredictionAccuracy.calculate_position_limit.
  repeat match goal with
         | |- context [if ?b then _ else _] => destruct b
         end; split; discriminate.
Qed.

(** X4: the token-weighted market divides by its pool without a guard: with
    an empty pool every price request raises [ZeroDivisionError]; otherwise
    the prices of outcome 0 and of any other outcome are returned and add up
    to 1. *)
Theorem token_prices (self : TokenWeighted.TokenWeightedMarket) :
  (TokenWeighted.total_yes self + TokenWeighted.total_no self == 0 ->
   forall o, TokenWeighted.calculate_price self o = Err ZeroDivisionError)
  /\ (~ TokenWeighted.total_yes self + TokenWeighted.total_no self == 0 ->
      forall o, o <> 0%Z ->
      exists p0 p1,
        TokenWeighted.calculate_price self 0 = Ok p0
        /\ TokenWeighted.calculate_price self o = Ok p1
        /\ p0 + p1 == 1).
Proof.
  split.
  - intros Hz o. unfold TokenWeighted.calculate_price.
    destruct (o =? 0)%Z; apply pydiv_zero; exact Hz.
  - intros Hnz o Ho. unfold TokenWeighted.calculate_price.
    apply Z.eqb_neq in Ho. rewrite Ho. cbn [Z.eqb].
    rewrite !(pydiv_nonzero _ _ Hnz).
    eexists. eexists. split; [reflexivity|]. split; [reflexivity|].
    field. exact Hnz.
Qed.

Lemma token_prices_witness :
  TokenWeighted.calculate_price (TokenWeighted.init 0) 1 = Err ZeroDivisionError
  /\ exists p0 p1,
       TokenWeighted.calculate_price
         (TokenWeighted.add_trade (TokenWeighted.init 100) 1 50 50) 0 = Ok p0
       /\ TokenWeighted.calculate_price
            (TokenWeighted.add_trade (TokenWeighted.init 100) 1 50 50) 1 = Ok p1
       /\ p0 + p1 == 1.
Proof.
  split.
  - apply (proj1 (token_prices (TokenWeighted.init 0))). reflexivity.
  - apply (proj2 (token_prices
                    (TokenWeighted.add_trade (TokenWeighted.init 100) 1 50 50))).
    + discriminate.
    + discriminate.
Defined.

(** X5: in every state of the reputation-weighted market, the empty pool
    included, the price of outcome 0 and the price of any other outcome add
    up to 1. *)
Theorem reputation_prices_sum_to_one
    (self : ReputationWeighted.ReputationWeightedMarket) (o : Z) :
  o <> 0%Z ->
  ReputationWeighted.calculate_price self 0
  + ReputationWeighted.calculate_price self o == 1.
Proof.
  intro Ho. unfold ReputationWeighted.calculate_price.
  apply Z.eqb_neq in Ho. rewrite Ho. cbn [Z.eqb].
  destruct (gtb _ 0) eqn:E.
  - apply gtb_true in E. field. lra.
  - reflexivity.
Qed.

Lemma reputation_prices_sum_to_one_witness :
  ReputationWeighted.calculate_price (ReputationWeighted.init 0) 0
  + ReputationWeighted.calculate_price (ReputationWeighted.init 0) 1 == 1.
Proof.
  apply (reputation_prices_sum_to_one (ReputationWeighted.init 0) 1).
  discriminate.
Defined.

(** One [add_trade] moves the pool by the recorded amount, at most 5% of the
    liquidity, and leaves the liquidity alone. *)
Lemma add_trade_effect
    (self : ReputationWeighted.ReputationWeightedMarket)
    (o : Z) (a rep acc : Q) :
  0 <= ReputationWeighted.liquidity self ->
  Qmin a (PredictionAccuracy.calculate_position_limit rep acc
          * ReputationWeighted.liquidity self)
    <= 0.05 * ReputationWeighted.liquidity self
  /\ ReputationWeighted.total_yes (ReputationWeighted.add_trade self o a rep acc)
     + ReputationWeighted.total_no (ReputationWeighted.add_trade self o a rep acc)
     == ReputationWeighted.total_yes self + ReputationWeighted.total_no self
        + Qmin a (PredictionAccuracy.calculate_position_limit rep acc
                  * ReputationWeighted.liquidity self)
  /\ ReputationWeighted.liquidity (ReputationWeighted.add_trade self o a rep acc)
     = ReputationWeighted.liquidity self.
Proof.
  intro HL. split; [|split].
  - eapply Qle_trans; [apply Q.le_min_r|].
    apply Qmult_le_compat_r; [|exact HL].
    apply (tier_fraction_range rep acc).
  - unfold ReputationWeighted.add_trade. cbv zeta.
    cbn [ReputationWeighted.total_yes ReputationWeighted.total_no].
    destruct (o =? 0)%Z; ring.
  - reflexivity.
Qed.

(** X6: a trade enters the reputation-weighted market capped at the
    trader's tier limit: the recorded amount is at most the requested amount
    and at most 5% of the liquidity, it is flagged as capped exactly when the
    request exceeded the tier limit, the pool grows by the recorded amount
    and the liquidity is left as it was. *)
Theorem add_trade_respects_position_limit
    (self : ReputationWeighted.ReputationWeightedMarket)
    (o : Z) (a rep acc : Q) :
  0 <= ReputationWeighted.liquidity self ->
  exists t,
    ReputationWeighted.trades (ReputationWeighted.add_trade self o a rep acc)
    = ReputationWeighted.trades self ++ [t]
    /\ ReputationWeighted.amount t <= a
    /\ ReputationWeighted.amount t <= 0.05 * ReputationWeighted.liquidity self
    /\ (ReputationWeighted.capped t = true <->
        PredictionAccuracy.calculate_position_limit rep acc
        * ReputationWeighted.liquidity self < a)
    /\ ReputationWeighted.total_yes (ReputationWeighted.add_trade self o a rep acc)
       + ReputationWeighted.total_no (ReputationWeighted.add_trade self o a rep acc)
       == ReputationWeighted.total_yes self + ReputationWeighted.total_no self
          + ReputationWeighted.amount t
    /\ ReputationWeighted.liquidity (ReputationWeighted.add_trade self o a rep acc)
       = ReputationWeighted.liquidity self.
Proof.
  intro HL. unfold ReputationWeighted.add_trade. cbv zeta.
  cbn [ReputationWeighted.trades ReputationWeighted.total_yes
       ReputationWeighted.total_no ReputationWeighted.liquidity].
  eexists. split; [reflexivity|].
  cbn [ReputationWeighted.amount ReputationWeighted.capped].
  destruct (tier_fraction_range rep acc) as [Hlo Hhi].
  set (f := PredictionAccuracy.calculate_position_limit rep acc) in *.
  set (L := ReputationWeighted.liquidity self) in *.
  assert (HfL : f * L <= 0.05 * L) by (apply Qmult_le_compat_r; assumption).
  split; [apply Q.le_min_l|].
  split; [eapply Qle_trans; [apply Q.le_min_r | exact HfL]|].
  split.
  - rewrite ltb_true. rewrite Q.min_lt_iff. split.
    + intros [H | H]; [exfalso; exact (Qlt_irrefl _ H) | exact H].
    + intro H. right. exact H.
  - split; [|reflexivity]. destruct (o =? 0)%Z; ring.
Qed.

Lemma add_trade_respects_position_limit_witness :
  exists t,
    ReputationWeighted.trades
      (ReputationWeighted.add_trade (ReputationWeighted.init 100) 0 50 200 0.5)
    = [] ++ [t]
    /\ ReputationWeighted.amount t <= 50
    /\ ReputationWeighted.amount t <= 0.05 * 100.
Proof.
  destruct (add_trade_respects_position_limit
              (ReputationWeighted.init 100) 0 50 200 0.5)
    as [t [Ht [Ha [Hl _]]]].
  - discriminate.
  - exists t. split; [exact Ht|]. split; [exact Ha | exact Hl].
Defined.

(** What a run of capped trades keeps true of a market of liquidity [L]:
    either side holds at least its initial half, and the pool has grown by at
    most 5% of [L] per trade. *)
Lemma add_trades_invariant (L : Q)
    (orders : list ReputationWeighted.Order)
    (m : ReputationWeighted.ReputationWeightedMarket) (j : nat) :
  0 <= L ->
  Forall (fun o => 0 <= ReputationWeighted.order_amount o) orders ->
  ReputationWeighted.liquidity m = L ->
  L / 2 <= ReputationWeighted.total_yes m ->
  L / 2 <= ReputationWeighted.total_no m ->
  ReputationWeighted.total_yes m + ReputationWeighted.total_no m
    <= L + 0.05 * L * inject_Z (Z.of_nat j) ->
  ReputationWeighted.liquidity (ReputationWeighted.add_trades m orders) = L
  /\ L / 2 <= ReputationWeighted.total_yes (ReputationWeighted.add_trades m orders)
  /\ L / 2 <= ReputationWeighted.total_no (ReputationWeighted.add_trades m orders)
  /\ ReputationWeighted.total_yes (ReputationWeighted.add_trades m orders)
     + ReputationWeighted.total_no (ReputationWeighted.add_trades m orders)
     <= L + 0.05 * L * inject_Z (Z.of_nat (j + length orders)).
Proof.
  intros HL Hall. revert m j.
  induction Hall as [|o orders Ho _ IH]; intros m j Hliq Hyes Hno Htot.
  - cbn [ReputationWeighted.add_trades fold_left length].
    rewrite Nat.add_0_r. auto.
  - unfold ReputationWeighted.add_trades. cbn [fold_left length].
    fold (ReputationWeighted.add_trades
            (ReputationWeighted.add_trade m
               (ReputationWeighted.order_outcome o)
               (ReputationWeighted.order_amount o)
               (ReputationWeighted.order_reputation o)
               (ReputationWeighted.order_accuracy o)) orders).
    replace (j + S (length orders))%nat with (S j + length orders)%nat by lia.
    assert (HLm : 0 <= ReputationWeighted.liquidity m) by (rewrite Hliq; exact HL).
    destruct (add_trade_effect m
                (ReputationWeighted.order_outcome o)
                (ReputationWeighted.order_amount o)
                (ReputationWeighted.order_reputation o)
                (ReputationWeighted.order_accuracy o) HLm)
      as [Hcap [Hgrow Hsame]].
    rewrite Hliq in Hcap.
    assert (Hstep : inject_Z (Z.of_nat (S j)) == inject_Z (Z.of_nat j) + 1).
    { rewrite Nat2Z.inj_succ. unfold Z.succ. rewrite inject_Z_plus.
      reflexivity. }
    apply IH.
    + rewrite Hsame. exact Hliq.
    + unfold ReputationWeighted.add_trade. cbv zeta.
      cbn [ReputationWeighted.total_yes].
      destruct (ReputationWeighted.order_outcome o =? 0)%Z; [|exact Hyes].
      assert (0 <= Qmin (ReputationWeighted.order_amount o)
                        (PredictionAccuracy.calculate_position_limit
                           (ReputationWeighted.order_reputation o)
                           (ReputationWeighted.order_accuracy o)
                         * ReputationWeighted.liquidity m)).
      { apply Q.min_glb; [exact Ho|].
        apply Qmult_le_0_compat; [|exact HLm].
        destruct (tier_fraction_range (ReputationWeighted.order_reputation o)
                    (ReputationWeighted.order_accuracy o)). lra. }
      lra.
    + unfold ReputationWeighted.add_trade. cbv zeta.
      cbn [ReputationWeighted.total_no].
      destruct (ReputationWeighted.order_outcome o =? 0)%Z; [exact Hno|].
      assert (0 <= Qmin (ReputationWeighted.order_amount o)
                        (PredictionAccuracy.calculate_position_limit
                           (ReputationWeighted.order_reputation o)
                           (ReputationWeighted.order_accuracy o)
                         * ReputationWeighted.liquidity m)).
      { apply Q.min_glb; [exact Ho|].
        apply Qmult_le_0_compat; [|exact HLm].
        destruct (tier_fraction_range (ReputationWeighted.order_reputation o)
                    (ReputationWeighted.order_accuracy o)). lra. }
      lra.
    + rewrite Hgrow, Hstep. rewrite Hliq. lra.
Qed.

(** X7: starting from a fresh reputation-weighted market with positive
    liquidity, [k] trades of non-negative size, whatever the sizes and
    whoever the traders, leave each outcome's price at no less than
    [1 / (2 + 0.1 * k)]. *)
Theorem capped_trades_price_floor (L : Q)
    (orders : list ReputationWeighted.Order) (o : Z) :
  0 < L ->
  Forall (fun order => 0 <= ReputationWeighted.order_amount order) orders ->
  1 <= (2 + 0.1 * inject_Z (Z.of_nat (length orders)))
       * ReputationWeighted.calculate_price
           (ReputationWeighted.add_trades (ReputationWeighted.init L) orders) o.
Proof.
  intros HL Hall.
  assert (Hhalf : L / 2 <= L / 2) by apply Qle_refl.
  assert (Hinit : L / 2 + L / 2 <= L + 0.05 * L * inject_Z (Z.of_nat 0)).
  { change (inject_Z (Z.of_nat 0)) with 0.
    setoid_replace (L / 2 + L / 2) with L by field. lra. }
  destruct (add_trades_invariant L orders (ReputationWeighted.init L) 0
              (Qlt_le_weak _ _ HL) Hall eq_refl Hhalf Hhalf Hinit)
    as [_ [Hyes [Hno Htot]]].
  cbn [Nat.add] in Htot.
  set (m := ReputationWeighted.add_trades (ReputationWeighted.init L) orders)
    in *.
  set (k := inject_Z (Z.of_nat (length orders))) in *.
  assert (Hk : 0 <= k).
  { unfold k. change 0 with (inject_Z 0). rewrite <- Zle_Qle. lia. }
  assert (HL2 : 0 < L / 2)
    by (apply Qlt_shift_div_l; [reflexivity | lra]).
  assert (Hpos : 0 < ReputationWeighted.total_yes m
                     + ReputationWeighted.total_no m) by lra.
  assert (Hside : forall side, L / 2 <= side ->
            1 <= (2 + 0.1 * k)
                 * (side / (ReputationWeighted.total_yes m
                            + ReputationWeighted.total_no m))).
  { intros side Hs.
    setoid_replace ((2 + 0.1 * k)
                    * (side / (ReputationWeighted.total_yes m
                               + ReputationWeighted.total_no m)))
      with ((2 + 0.1 * k) * side
            / (ReputationWeighted.total_yes m + ReputationWeighted.total_no m))
      by (field; lra).
    apply Qle_shift_div_l; [exact Hpos|]. rewrite Qmult_1_l.
    eapply Qle_trans; [exact Htot|].
    setoid_replace (L + 0.05 * L * k) with ((2 + 0.1 * k) * (L / 2))
      by field.
    apply Qmult_le_l; [lra | exact Hs]. }
  unfold ReputationWeighted.calculate_price. cbv zeta.
  apply gtb_true in Hpos. rewrite Hpos.
  destruct (o =? 0)%Z; apply Hside; assumption.
Qed.

Lemma capped_trades_price_floor_witness :
  1 <= (2 + 0.1 * 2)
       * ReputationWeighted.calculate_price
           (ReputationWeighted.add_trades (ReputationWeighted.init 100)
              [ReputationWeighted.mkOrder 0 5000 200 0.5;
               ReputationWeighted.mkOrder 0 9000 20000 0.9]) 1.
Proof.
  apply (capped_trades_price_floor 100
           [ReputationWeighted.mkOrder 0 5000 200 0.5;
            ReputationWeighted.mkOrder 0 9000 20000 0.9] 1).
  - reflexivity.
  - repeat constructor; discriminate.
Defined.

(** ** The whale and Sybil scenarios *)

Lemma tier_one_fraction (rep acc : Q) :
  rep < 500 \/ acc < 0.55 ->
  PredictionAccuracy.calculate_position_limit rep acc = 0.01.
Proof.
  intro H. unfold PredictionAccuracy.calculate_position_limit.
  assert (H5 : geb rep PredictionAccuracy.TIER_5_REP
               && geb acc PredictionAccuracy.TIER_5_ACC = false).
  { apply andb_false_iff. destruct H as [H | H]; [left | right];
      apply geb_false; unfold PredictionAccuracy.TIER_5_REP,
        PredictionAccuracy.TIER_5_ACC; lra. }
  assert (H4 : geb rep PredictionAccuracy.TIER_4_REP
               && geb acc PredictionAccuracy.TIER_4_ACC = false).
  { apply andb_false_iff. destruct H as [H | H]; [left | right];
      apply geb_false; unfold PredictionAccuracy.TIER_4_REP,
        PredictionAccuracy.TIER_4_ACC; lra. }
  assert (H3 : geb rep PredictionAccuracy.TIER_3_REP
               && geb acc PredictionAccuracy.TIER_3_ACC = false).
  { apply andb_false_iff. destruct H as [H | H]; [left | right];
      apply geb_false; unfold PredictionAccuracy.TIER_3_REP,
        PredictionAccuracy.TIER_3_ACC; lra. }
  assert (H2 : geb rep PredictionAccuracy.TIER_2_REP
               && geb acc PredictionAccuracy.TIER_2_ACC = false).
  { apply andb_false_iff. destruct H as [H | H]; [left | right];
      apply geb_false; unfold PredictionAccuracy.TIER_2_REP,
        PredictionAccuracy.TIER_2_ACC; lra. }
  rewrite H5, H4, H3, H2. reflexivity.
Qed.

(** At block 600 a market created no later than block 100 is in its
    Standard phase. *)
Lemma limit_at_block_600 (market0 : SybilSimulation.ReputationWeightedMarket)
    (u : SybilSimulation.User) :
  (SybilSimulation.creation_block market0 <= 100)%Z ->
  SybilSimulation.calculate_position_limit
    (SybilAttacks.set_current_block market0 600) u
  = SybilSimulation.total_liquidity market0
    * PredictionAccuracy.calculate_position_limit
        (SybilSimulation.reputation u) (SybilSimulation.accuracy u).
Proof.
  intro H.
  rewrite standard_limit_is_tier_fraction; [reflexivity|].
  unfold SybilSimulation.blocks_since_creation, SybilAttacks.set_current_block,
    SybilSimulation.EARLY_GROWTH_BLOCKS.
  cbn [SybilSimulation.current_block SybilSimulation.creation_block]. lia.
Qed.

Lemma effective_stake_bounds (market0 : SybilSimulation.ReputationWeightedMarket)
    (u : SybilSimulation.User) :
  (SybilSimulation.creation_block market0 <= 100)%Z ->
  0 <= SybilSimulation.total_liquidity market0 ->
  0 <= SybilSimulation.capital u ->
  0 <= SybilAttacks.effective_stake
         (SybilAttacks.set_current_block market0 600) u.
Proof.
  intros Hcb HL Hc. unfold SybilAttacks.effective_stake.
  rewrite (limit_at_block_600 market0 u Hcb).
  apply Q.min_glb; [exact Hc|].
  apply Qmult_le_0_compat; [exact HL|].
  destruct (tier_fraction_range (SybilSimulation.reputation u)
              (SybilSimulation.accuracy u)). lra.
Qed.

(** X8: [simulate_whale_attack] always moves the market to block 600; it
    raises [ZeroDivisionError] exactly when the attacker's and the honest
    users' capital add up to zero (the capital percentage is the one
    unguarded division) and returns a report otherwise. *)
Theorem whale_attack_zero_capital
    (market0 : SybilSimulation.ReputationWeightedMarket)
    (attacker : SybilSimulation.User)
    (honest_users : list SybilSimulation.User) :
  SybilSimulation.current_block
    (fst (SybilAttacks.simulate_whale_attack market0 attacker honest_users))
  = 600%Z
  /\ (SybilSimulation.capital attacker
      + sum (map SybilSimulation.capital honest_users) == 0 ->
      snd (SybilAttacks.simulate_whale_attack market0 attacker honest_users)
      = Err ZeroDivisionError)
  /\ (~ SybilSimulation.capital attacker
        + sum (map SybilSimulation.capital honest_users) == 0 ->
      exists r,
        snd (SybilAttacks.simulate_whale_attack market0 attacker honest_users)
        = Ok r).
Proof.
  unfold SybilAttacks.simulate_whale_attack. cbv zeta. cbn [fst snd].
  split; [reflexivity|]. split; intro H.
  - rewrite (pydiv_zero _ _ H). reflexivity.
  - rewrite (pydiv_nonzero _ _ H). cbn [bind]. eexists. reflexivity.
Qed.

Lemma whale_attack_zero_capital_witness :
  snd (SybilAttacks.simulate_whale_attack (SybilAttacks.init 1000)
         (SybilSimulation.mkUser String.EmptyString 0 200 0.52 5) [])
  = Err ZeroDivisionError
  /\ exists r,
       snd (SybilAttacks.simulate_whale_attack (SybilAttacks.init 1000)
              (SybilSimulation.mkUser String.EmptyString 50 200 0.52 5)
              [SybilSimulation.mkUser String.EmptyString 5 2000 0.8 5])
       = Ok r.
Proof.
  split.
  - apply (proj1 (proj2 (whale_attack_zero_capital (SybilAttacks.init 1000)
             (SybilSimulation.mkUser String.EmptyString 0 200 0.52 5) []))).
    reflexivity.
  - apply (proj2 (proj2 (whale_attack_zero_capital (SybilAttacks.init 1000)
             (SybilSimulation.mkUser String.EmptyString 50 200 0.52 5)
             [SybilSimulation.mkUser String.EmptyString 5 2000 0.8 5]))).
    discriminate.
Defined.

(** X9: on a market created no later than block 100 with non-negative
    liquidity, the stake the whale report grants the attacker is at most the
    attacker's capital and at most 5% of the liquidity, and at most 1% of it
    for an attacker with reputation below 500 or accuracy below 0.55,
    however large the capital. *)
Theorem whale_stake_capped
    (market0 : SybilSimulation.ReputationWeightedMarket)
    (attacker : SybilSimulation.User)
    (honest_users : list SybilSimulation.User) (r : SybilAttacks.WhaleReport) :
  (SybilSimulation.creation_block market0 <= 100)%Z ->
  0 <= SybilSimulation.total_liquidity market0 ->
  snd (SybilAttacks.simulate_whale_attack market0 attacker honest_users) = Ok r ->
  SybilAttacks.attacker_effective_stake r <= SybilSimulation.capital attacker
  /\ SybilAttacks.attacker_effective_stake r
     <= 0.05 * SybilSimulation.total_liquidity market0
  /\ (SybilSimulation.reputation attacker < 500
      \/ SybilSimulation.accuracy attacker < 0.55 ->
      SybilAttacks.attacker_effective_stake r
      <= 0.01 * SybilSimulation.total_liquidity market0).
Proof.
  intros Hcb HL Hr.
  unfold SybilAttacks.simulate_whale_attack in Hr. cbv zeta in Hr.
  cbn [snd] in Hr.
  destruct (pydiv _ _) as [pct|]; [|discriminate Hr].
  cbn [bind] in Hr. injection Hr as <-.
  cbn [SybilAttacks.attacker_effective_stake].
  rewrite (limit_at_block_600 market0 attacker Hcb).
  destruct (tier_fraction_range (SybilSimulation.reputation attacker)
              (SybilSimulation.accuracy attacker)) as [_ Hhi].
  split; [apply Q.le_min_l|]. split.
  - eapply Qle_trans; [apply Q.le_min_r|].
    rewrite (Qmult_comm (SybilSimulation.total_liquidity market0)).
    apply Qmult_le_compat_r; assumption.
  - intro Hlow. rewrite (tier_one_fraction _ _ Hlow).
    eapply Qle_trans; [apply Q.le_min_r|].
    rewrite Qmult_comm. apply Qle_refl.
Qed.

Lemma whale_stake_capped_witness :
  exists r,
    snd (SybilAttacks.simulate_whale_attack (SybilAttacks.init 1000)
           (SybilSimulation.mkUser String.EmptyString 5000 200 0.52 5)
           [SybilSimulation.mkUser String.EmptyString 5 2000 0.8 5]) = Ok r
    /\ SybilAttacks.attacker_effective_stake r <= 0.01 * 1000.
Proof.
  eexists. split; [reflexivity|].
  apply (whale_stake_capped (SybilAttacks.init 1000)
           (SybilSimulation.mkUser String.EmptyString 5000 200 0.52 5)
           [SybilSimulation.mkUser String.EmptyString 5 2000 0.8 5]).
  - discriminate.
  - discriminate.
  - reflexivity.
  - left. reflexivity.
Defined.

(** X10: with non-negative capitals and liquidity (market created no later
    than block 100), the attacker's influence in the whale report is a
    percentage between 0 and 100. *)
Theorem whale_influence_bounded
    (market0 : SybilSimulation.ReputationWeightedMarket)
    (attacker : SybilSimulation.User)
    (honest_users : list SybilSimulation.User) (r : SybilAttacks.WhaleReport) :
  (SybilSimulation.creation_block market0 <= 100)%Z ->
  0 <= SybilSimulation.total_liquidity market0 ->
  0 <= SybilSimulation.capital attacker ->
  Forall (fun u => 0 <= SybilSimulation.capital u) honest_users ->
  snd (SybilAttacks.simulate_whale_attack market0 attacker honest_users) = Ok r ->
  0 <= SybilAttacks.attacker_influence_pct r <= 100.
Proof.
  intros Hcb HL Hc Hh Hr.
  unfold SybilAttacks.simulate_whale_attack in Hr. cbv zeta in Hr.
  cbn [snd] in Hr.
  destruct (pydiv _ _) as [pct|]; [|discriminate Hr].
  cbn [bind] in Hr. injection Hr as <-.
  cbn [SybilAttacks.attacker_influence_pct].
  fold (SybilAttacks.effective_stake
          (SybilAttacks.set_current_block market0 600) attacker).
  pose proof (effective_stake_bounds market0 attacker Hcb HL Hc) as He.
  set (e := SybilAttacks.effective_stake
              (SybilAttacks.set_current_block market0 600) attacker) in *.
  assert (Hs : 0 <= sum (map (SybilAttacks.effective_stake
                                (SybilAttacks.set_current_block market0 600))
                             honest_users)).
  { apply sum_nonneg. apply Forall_map.
    eapply Forall_impl; [|exact Hh]. cbv beta. intros u Hu.
    apply effective_stake_bounds; assumption. }
  set (h := sum (map _ honest_users)) in *.
  destruct (gtb (e + h) 0) eqn:E; [|split; discriminate].
  apply gtb_true in E.
  assert (H0 : 0 <= e / (e + h))
    by (apply Qle_shift_div_l; [exact E | lra]).
  assert (H1 : e / (e + h) <= 1)
    by (apply Qle_shift_div_r; [exact E | lra]).
  split; lra.
Qed.

Lemma whale_influence_bounded_witness :
  exists r,
    snd (SybilAttacks.simulate_whale_attack (SybilAttacks.init 1000)
           (SybilSimulation.mkUser String.EmptyString 5000 200 0.52 5)
           [SybilSimulation.mkUser String.EmptyString 5 2000 0.8 5]) = Ok r
    /\ 0 <= SybilAttacks.attacker_influence_pct r <= 100.
Proof.
  eexists. split; [reflexivity|].
  apply (whale_influence_bounded (SybilAttacks.init 1000)
           (SybilSimulation.mkUser String.EmptyString 5000 200 0.52 5)
           [SybilSimulation.mkUser String.EmptyString 5 2000 0.8 5]).
  - discriminate.
  - discriminate.
  - discriminate.
  - repeat constructor; discriminate.
  - reflexivity.
Defined.

Lemma inject_Z_nonzero (z : Z) : z <> 0%Z -> ~ inject_Z z == 0.
Proof.
  intros Hz H. apply Hz. apply inject_Z_injective. exact H.
Qed.

Lemma sum_map_const {A : Type} (f : A -> Q) (c : Q) (xs : list A) :
  (forall x, In x xs -> f x = c) ->
  sum (map f xs) == inject_Z (Z.of_nat (length xs)) * c.
Proof.
  induction xs as [|x xs IH]; intro H.
  - cbn [map length]. rewrite sum_nil. ring.
  - cbn [map length]. rewrite sum_cons, IH
      by (intros y Hy; apply H; right; exact Hy).
    rewrite (H x (or_introl eq_refl)).
    rewrite Nat2Z.inj_succ. unfold Z.succ. rewrite inject_Z_plus. ring.
Qed.

Lemma filter_none {A : Type} (f : A -> bool) (xs : list A) :
  (forall x, In x xs -> f x = false) -> filter f xs = [].
Proof.
  induction xs as [|x xs IH]; intro H; [reflexivity|].
  cbn [filter]. rewrite (H x (or_introl eq_refl)).
  apply IH. intros y Hy. apply H. right. exact Hy.
Qed.

(** Every identity the attacker creates is a newcomer: initial reputation and
    even odds. *)
Lemma sybil_users_profile (c : Q) (count : Z) (u : SybilSimulation.User) :
  In u (SybilAttacks.sybil_users c count) ->
  SybilSimulation.reputation u = SybilSimulation.INITIAL_REP
  /\ SybilSimulation.accuracy u = 0.50
  /\ SybilSimulation.capital u = c.
Proof.
  unfold SybilAttacks.sybil_users. intro H. apply in_map_iff in H.
  destruct H as [i [<- _]]. repeat split.
Qed.

Lemma sybil_users_length (c : Q) (count : Z) :
  length (SybilAttacks.sybil_users c count) = Z.to_nat count.
Proof.
  unfold SybilAttacks.sybil_users. rewrite length_map. apply length_seq.
Qed.

(** X11: [simulate_sybil_attack] with no identities raises
    [ZeroDivisionError] and leaves the market untouched; with any other count,
    on a market whose block 50 lies in Genesis, it returns a report in which
    no identity is eligible and the Genesis phase counts as blocked, and the
    market is left at block 600. *)
Theorem sybil_attack_genesis_blocked
    (market0 : SybilSimulation.ReputationWeightedMarket)
    (total_attacker_capital : Q) (count : Z)
    (honest_users : list SybilSimulation.User) :
  SybilAttacks.simulate_sybil_attack market0 total_attacker_capital 0
    honest_users = (market0, Err ZeroDivisionError)
  /\ (count <> 0%Z ->
      (-50 < SybilSimulation.creation_block market0)%Z ->
      exists r,
        SybilAttacks.simulate_sybil_attack market0 total_attacker_capital count
          honest_users
        = (SybilAttacks.set_current_block market0 600, Ok r)
        /\ SybilAttacks.genesis_blocked r = true
        /\ SybilAttacks.genesis_eligible_count r = 0%nat).
Proof.
  split; [reflexivity|].
  intros Hcount Hcb. unfold SybilAttacks.simulate_sybil_attack.
  rewrite (pydiv_nonzero _ _ (inject_Z_nonzero count Hcount)). cbv zeta.
  set (sybils := SybilAttacks.sybil_users _ count).
  assert (Hnone : filter (SybilSimulation.can_participate_in_genesis
                            (SybilAttacks.set_current_block market0 50))
                         sybils = []).
  { apply filter_none.
    intros u Hu. destruct (sybil_users_profile _ _ _ Hu) as [Hrep _].
    unfold SybilSimulation.can_participate_in_genesis,
      SybilSimulation.blocks_since_creation, SybilAttacks.set_current_block.
    cbn [SybilSimulation.current_block SybilSimulation.creation_block].
    assert (Hgen : (50 - SybilSimulation.creation_block market0
                    <? SybilSimulation.GENESIS_PHASE_BLOCKS)%Z = true).
    { apply Z.ltb_lt. unfold SybilSimulation.GENESIS_PHASE_BLOCKS. lia. }
    rewrite Hgen, Hrep. reflexivity. }
  rewrite Hnone. cbn [length Nat.eqb fst snd].
  eexists. split; [reflexivity|]. split; reflexivity.
Qed.

Lemma sybil_attack_genesis_blocked_witness :
  exists r,
    SybilAttacks.simulate_sybil_attack (SybilAttacks.init 1000) 50 10 []
    = (SybilAttacks.set_current_block (SybilAttacks.init 1000) 600, Ok r)
    /\ SybilAttacks.genesis_blocked r = true
    /\ SybilAttacks.genesis_eligible_count r = 0%nat.
Proof.
  apply (proj2 (sybil_attack_genesis_blocked (SybilAttacks.init 1000) 50 10 [])).
  - discriminate.
  - reflexivity.
Defined.

(** X12: in the Standard phase the identities' limits do not depend on the
    capital spread over them: [count] > 0 identities on a market of positive
    liquidity (created no later than block 100) together get [count] times 1%
    of the liquidity, that is [count / 3] times the limit of the tier-3
    benchmark and [count / 5] times that of the tier-5 benchmark; the report
    is flagged MeritRank compliant for up to 9 identities and is not for 11
    or more.  With 10 identities the advantage sits on the bound 2.0 of the
    test and the flag follows the rounding of the floating-point quotient,
    so nothing is stated for it. *)
Theorem sybil_advantage_by_count
    (market0 : SybilSimulation.ReputationWeightedMarket)
    (total_attacker_capital : Q) (count : Z)
    (honest_users : list SybilSimulation.User) (r : SybilAttacks.SybilReport) :
  (0 < count)%Z ->
  (SybilSimulation.creation_block market0 <= 100)%Z ->
  0 < SybilSimulation.total_liquidity market0 ->
  snd (SybilAttacks.simulate_sybil_attack market0 total_attacker_capital count
         honest_users) = Ok r ->
  SybilAttacks.sybil_total_limit r
    == inject_Z count * (0.01 * SybilSimulation.total_liquidity market0)
  /\ (exists q3, SybilAttacks.sybil_advantage_tier3 r = SybilAttacks.Finite q3
                 /\ q3 == inject_Z count / 3)
  /\ (exists q5, SybilAttacks.sybil_advantage_tier5 r = SybilAttacks.Finite q5
                 /\ q5 == inject_Z count / 5)
  /\ ((count <= 9)%Z -> SybilAttacks.meritrank_compliant r = true)
  /\ ((11 <= count)%Z -> SybilAttacks.meritrank_compliant r = false).
Proof.
  intros Hcount Hcb HL Hr.
  unfold SybilAttacks.simulate_sybil_attack in Hr.
  assert (Hnz : count <> 0%Z) by lia.
  rewrite (pydiv_nonzero _ _ (inject_Z_nonzero count Hnz)) in Hr.
  cbv zeta in Hr. cbn [snd] in Hr. injection Hr as <-.
  cbn [SybilAttacks.sybil_total_limit SybilAttacks.sybil_advantage_tier3
       SybilAttacks.sybil_advantage_tier5 SybilAttacks.meritrank_compliant].
  change (SybilAttacks.set_current_block
            (SybilAttacks.set_current_block market0 50) 600)
    with (SybilAttacks.set_current_block market0 600).
  set (L := SybilSimulation.total_liquidity market0) in *.
  set (sybils := SybilAttacks.sybil_users _ count).
  (* what the identities get together *)
  assert (Htotal : sum (map (SybilSimulation.calculate_position_limit
                               (SybilAttacks.set_current_block market0 600))
                            sybils)
                   == inject_Z count * (0.01 * L)).
  { rewrite (sum_map_const _ (L * 0.01)).
    - unfold sybils. rewrite sybil_users_length, Z2Nat.id by lia. ring.
    - intros u Hu. destruct (sybil_users_profile _ _ _ Hu) as [Hrep [Hacc _]].
      rewrite (limit_at_block_600 market0 u Hcb), Hrep, Hacc. reflexivity. }
  (* the two benchmarks *)
  rewrite !(limit_at_block_600 market0 _ Hcb).
  cbn [SybilSimulation.reputation SybilSimulation.accuracy].
  change (PredictionAccuracy.calculate_position_limit
            SybilSimulation.TIER_3_REP SybilSimulation.TIER_3_ACC) with 0.03.
  change (PredictionAccuracy.calculate_position_limit
            SybilSimulation.TIER_5_REP SybilSimulation.TIER_5_ACC) with 0.05.
  fold L.
  assert (H3 : gtb (L * 0.03) 0 = true) by (apply gtb_true; lra).
  assert (H5 : gtb (L * 0.05) 0 = true) by (apply gtb_true; lra).
  rewrite H3, H5.
  assert (Hratio : sum (map (SybilSimulation.calculate_position_limit
                               (SybilAttacks.set_current_block market0 600))
                            sybils) / (L * 0.05)
                   == inject_Z count / 5).
  { rewrite Htotal. field. lra. }
  split; [exact Htotal|]. split; [|split; [|split]].
  - eexists. split; [reflexivity|]. rewrite Htotal. field. lra.
  - eexists. split; [reflexivity|]. exact Hratio.
  - intro H. cbn [SybilAttacks.ext_leb]. rewrite Qle_bool_iff, Hratio.
    rewrite Zle_Qle in H. change (inject_Z 9) with 9 in H.
    apply Qle_shift_div_r; [reflexivity | lra].
  - intro H. cbn [SybilAttacks.ext_leb].
    destruct (Qle_bool _ 2.0) eqn:E; [|reflexivity].
    apply Qle_bool_iff in E. rewrite Hratio in E.
    assert (H' : inject_Z count <= inject_Z 10).
    { change (inject_Z 10) with 10.
      apply (Qmult_le_r _ _ (/ 5)); [reflexivity|].
      unfold Qdiv in E. eapply Qle_trans; [exact E|]. discriminate. }
    rewrite <- Zle_Qle in H'. lia.
Qed.

Lemma sybil_advantage_by_count_witness :
  exists r,
    snd (SybilAttacks.simulate_sybil_attack (SybilAttacks.init 1000) 50 12 [])
    = Ok r
    /\ SybilAttacks.sybil_total_limit r == 12 * (0.01 * 1000)
    /\ SybilAttacks.meritrank_compliant r = false.
Proof.
  assert (Hr : exists r,
            snd (SybilAttacks.simulate_sybil_attack (SybilAttacks.init 1000)
                   50 12 []) = Ok r)
    by (eexists; reflexivity).
  destruct Hr as [r Hr]. exists r. split; [exact Hr|].
  assert (Hcount : (0 < 12)%Z) by reflexivity.
  assert (Hcb : (SybilSimulation.creation_block (SybilAttacks.init 1000)
                 <= 100)%Z) by discriminate.
  assert (HL : 0 < SybilSimulation.total_liquidity (SybilAttacks.init 1000))
    by reflexivity.
  destruct (sybil_advantage_by_count (SybilAttacks.init 1000) 50 12 [] r
              Hcount Hcb HL Hr) as [Ht [_ [_ [_ Hm]]]].
  split; [exact Ht|]. apply Hm. discriminate.
Defined.

(** ** The decay report *)

Lemma decay_report_fields (rep : Q) (months : Z) :
  (SybilSimulation.MIN_ACTIVITY_THRESHOLD_DAYS < months * 30)%Z ->
  SybilSimulation.decay_amount
    (SybilSimulation.simulate_reputation_decay_resistance rep months)
  = rep * SybilSimulation.total_decay_rate months.
Proof.
  intro H. unfold SybilSimulation.simulate_reputation_decay_resistance.
  apply Z.leb_gt in H. rewrite H. reflexivity.
Qed.

Lemma decay_report_fields_idle (rep : Q) (months : Z) :
  (months * 30 <= SybilSimulation.MIN_ACTIVITY_THRESHOLD_DAYS)%Z ->
  SybilSimulation.decay_amount
    (SybilSimulation.simulate_reputation_decay_resistance rep months) = 0.
Proof.
  intro H. unfold SybilSimulation.simulate_reputation_decay_resistance.
  apply Z.leb_le in H. rewrite H. reflexivity.
Qed.

Lemma decay_report_percentages (rep : Q) (months : Z) :
  0 < rep ->
  SybilSimulation.decay_percentage
    (SybilSimulation.simulate_reputation_decay_resistance rep months)
  = SybilSimulation.decay_amount
      (SybilSimulation.simulate_reputation_decay_resistance rep months)
    / rep * 100
  /\ SybilSimulation.remaining_percentage
       (SybilSimulation.simulate_reputation_decay_resistance rep months)
     = SybilSimulation.decayed_reputation
         (SybilSimulation.simulate_reputation_decay_resistance rep months)
       / rep * 100.
Proof.
  intro H. apply gtb_true in H.
  unfold SybilSimulation.simulate_reputation_decay_resistance.
  destruct (months * 30 <=? SybilSimulation.MIN_ACTIVITY_THRESHOLD_DAYS)%Z;
    cbn [SybilSimulation.decay_percentage SybilSimulation.remaining_percentage
         SybilSimulation.decay_amount SybilSimulation.decayed_reputation];
    rewrite H; split; reflexivity.
Qed.

Lemma total_decay_rate_cap (months : Z) :
  SybilSimulation.total_decay_rate months <= 0.75.
Proof.
  unfold SybilSimulation.total_decay_rate. apply Q.le_min_r.
Qed.

(** X13: the decay report of a non-negative reputation adds up: what decayed
    plus what remains is the initial reputation, the decayed amount is
    between 0 and 75% of it, and for a positive reputation the two
    percentages add up to 100. *)
Theorem decay_report_accounts (rep : Q) (months : Z) :
  0 <= rep ->
  SybilSimulation.decay_amount
    (SybilSimulation.simulate_reputation_decay_resistance rep months)
  + SybilSimulation.decayed_reputation
      (SybilSimulation.simulate_reputation_decay_resistance rep months) == rep
  /\ 0 <= SybilSimulation.decay_amount
            (SybilSimulation.simulate_reputation_decay_resistance rep months)
       <= 0.75 * rep
  /\ (0 < rep ->
      SybilSimulation.decay_percentage
        (SybilSimulation.simulate_reputation_decay_resistance rep months)
      + SybilSimulation.remaining_percentage
          (SybilSimulation.simulate_reputation_decay_resistance rep months)
      == 100).
Proof.
  intro Hrep.
  assert (Hsum :
    SybilSimulation.decay_amount
      (SybilSimulation.simulate_reputation_decay_resistance rep months)
    + SybilSimulation.decayed_reputation
        (SybilSimulation.simulate_reputation_decay_resistance rep months)
    == rep
    /\ 0 <= SybilSimulation.decay_amount
              (SybilSimulation.simulate_reputation_decay_resistance rep months)
         <= 0.75 * rep).
  { fold (SybilSimulation.remaining_rep rep months).
    destruct (Z_le_gt_dec (months * 30)
                SybilSimulation.MIN_ACTIVITY_THRESHOLD_DAYS) as [H | H].
    - rewrite (decay_report_fields_idle rep months H).
      rewrite (remaining_no_decay rep months H). split; [ring | lra].
    - apply Z.gt_lt in H.
      rewrite (decay_report_fields rep months H).
      rewrite (remaining_decay rep months H).
      pose proof (total_decay_rate_nonneg months H) as Hlo.
      pose proof (total_decay_rate_cap months) as Hhi.
      set (rate := SybilSimulation.total_decay_rate months) in *.
      assert (Hp : 0 <= rep * rate) by (apply Qmult_le_0_compat; assumption).
      assert (Hq : rep * rate <= rep * 0.75).
      { destruct (Qle_lt_or_eq _ _ Hrep) as [Hpos | Hz].
        - apply Qmult_le_l; assumption.
        - rewrite <- Hz, !Qmult_0_l. apply Qle_refl. }
      assert (Hmax : Qmax (rep - rep * rate)
                          (rep * SybilSimulation.MIN_PROTECTION_RATE)
                     == rep - rep * rate).
      { apply Q.max_l. unfold SybilSimulation.MIN_PROTECTION_RATE. lra. }
      rewrite Hmax. split; [ring | lra]. }
  destruct Hsum as [Hsum Hbounds]. split; [exact Hsum|]. split; [exact Hbounds|].
  intro Hpos. destruct (decay_report_percentages rep months Hpos) as [-> ->].
  set (a := SybilSimulation.decay_amount _) in *.
  set (d := SybilSimulation.decayed_reputation _) in *.
  setoid_replace (a / rep * 100 + d / rep * 100) with ((a + d) / rep * 100)
    by (field; lra).
  rewrite Hsum. field. lra.
Qed.

Lemma decay_report_accounts_witness :
  SybilSimulation.decay_amount
    (SybilSimulation.simulate_reputation_decay_resistance 10000 12)
  + SybilSimulation.decayed_reputation
      (SybilSimulation.simulate_reputation_decay_resistance 10000 12) == 10000
  /\ SybilSimulation.decay_percentage
       (SybilSimulation.simulate_reputation_decay_resistance 10000 12)
     + SybilSimulation.remaining_percentage
         (SybilSimulation.simulate_reputation_decay_resistance 10000 12)
     == 100.
Proof.
  assert (H : 0 <= 10000) by discriminate.
  destruct (decay_report_accounts 10000 12 H) as [Hs [_ Hp]].
  split; [exact Hs|]. apply Hp. reflexivity.
Defined.

(** X14: the remaining reputation in closed form, for a non-negative
    reputation: unchanged up to 3 months, then 1% of the initial value less
    for every further month, and exactly a quarter of the initial value from
    78 months on. *)
Theorem decay_closed_form (rep : Q) (months : Z) :
  0 <= rep ->
  ((months <= 3)%Z -> SybilSimulation.remaining_rep rep months = rep)
  /\ ((3 <= months <= 78)%Z ->
      SybilSimulation.remaining_rep rep months
      == rep * (1 - 0.01 * (inject_Z months - 3)))
  /\ ((78 <= months)%Z ->
      SybilSimulation.remaining_rep rep months == 0.25 * rep).
Proof.
  intro Hrep.
  assert (Hdecay : (3 < months)%Z ->
    SybilSimulation.remaining_rep rep months
    == rep - rep * Qmin (0.01 * (inject_Z months - 3)) 0.75).
  { intro H.
    assert (H' : (SybilSimulation.MIN_ACTIVITY_THRESHOLD_DAYS < months * 30)%Z)
      by (unfold SybilSimulation.MIN_ACTIVITY_THRESHOLD_DAYS; lia).
    rewrite (remaining_decay rep months H').
    pose proof (total_decay_rate_cap months) as Hhi.
    assert (Hrate : SybilSimulation.total_decay_rate months
                    == Qmin (0.01 * (inject_Z months - 3)) 0.75).
    { unfold SybilSimulation.total_decay_rate.
      rewrite decay_periods_linear. reflexivity. }
    assert (Hq : rep * SybilSimulation.total_decay_rate months <= rep * 0.75).
    { destruct (Qle_lt_or_eq _ _ Hrep) as [Hpos | Hz].
      - apply Qmult_le_l; assumption.
      - rewrite <- Hz, !Qmult_0_l. apply Qle_refl. }
    rewrite Q.max_l
      by (unfold SybilSimulation.MIN_PROTECTION_RATE; lra).
    rewrite Hrate. reflexivity. }
  split; [|split].
  - intro H. apply remaining_no_decay.
    unfold SybilSimulation.MIN_ACTIVITY_THRESHOLD_DAYS. lia.
  - intros [Hlo Hhi].
    destruct (Z.eq_dec months 3) as [-> | Hne].
    + rewrite remaining_no_decay by discriminate.
      change (inject_Z 3) with 3. ring.
    + rewrite Hdecay by lia.
      rewrite Zle_Qle in Hhi. change (inject_Z 78) with 78 in Hhi.
      rewrite Q.min_l by lra. ring.
  - intro H. rewrite Hdecay by lia.
    rewrite Zle_Qle in H. change (inject_Z 78) with 78 in H.
    rewrite Q.min_r by lra. ring.
Qed.

Lemma decay_closed_form_witness :
  SybilSimulation.remaining_rep 10000 2 = 10000
  /\ SybilSimulation.remaining_rep 10000 12
     == 10000 * (1 - 0.01 * (inject_Z 12 - 3))
  /\ SybilSimulation.remaining_rep 10000 90 == 0.25 * 10000.
Proof.
  assert (H : 0 <= 10000) by discriminate.
  split; [|split].
  - apply (proj1 (decay_closed_form 10000 2 H)). discriminate.
  - apply (proj1 (proj2 (decay_closed_form 10000 12 H))).
    split; discriminate.
  - apply (proj2 (proj2 (decay_closed_form 10000 90 H))). discriminate.
Defined.

(** ** Coalition power *)

Lemma mask_members_all (k start : nat) :
  mask_members (repeat true k) start = seq start k.
Proof.
  revert start. induction k as [|k IH]; intro start; [reflexivity|].
  cbn [repeat mask_members seq]. rewrite IH. reflexivity.
Qed.

Lemma selected_all {A : Type} (xs : list A) :
  selected xs (repeat true (length xs)) = xs.
Proof.
  induction xs as [|x xs IH]; [reflexivity|].
  cbn [length repeat selected]. rewrite IH. reflexivity.
Qed.

Lemma dot_complement (xs : list Q) (m : list bool) :
  length m = length xs ->
  dot xs m + dot xs (map negb m) == sum xs.
Proof.
  revert m. induction xs as [|x xs IH]; intros [|b m] Hlen;
    try discriminate Hlen.
  - cbn. reflexivity.
  - injection Hlen as Hlen. cbn [map dot]. rewrite sum_cons.
    rewrite <- (IH m Hlen). destruct b; cbn [negb]; ring.
Qed.

Lemma dot_bounds (xs : list Q) (m : list bool) :
  Forall (Qle 0) xs -> length m = length xs -> 0 <= dot xs m <= sum xs.
Proof.
  intro Hxs. revert m.
  induction Hxs as [|x xs Hx _ IH]; intros [|b m] Hlen;
    try discriminate Hlen.
  - cbn. split; discriminate.
  - injection Hlen as Hlen. cbn [dot]. rewrite sum_cons.
    destruct (IH m Hlen) as [H0 H1]. destruct b; split; lra.
Qed.

Lemma geb_compat (a b c : Q) : a == b -> geb a c = geb b c.
Proof.
  intro H. unfold geb.
  destruct (Qle_bool c a) eqn:Ea; destruct (Qle_bool c b) eqn:Eb;
    try reflexivity.
  - apply Qle_bool_iff in Ea. rewrite H in Ea. apply Qle_bool_iff in Ea.
    congruence.
  - apply Qle_bool_iff in Eb. rewrite <- H in Eb. apply Qle_bool_iff in Eb.
    congruence.
Qed.

(** X15: on a well-formed population whose score and reputation totals are
    not zero, the coalition of all legislators has voting power 1 and can
    override. *)
Theorem full_population_power (self : LegislatorCartel) :
  length (scores self) = n self ->
  length (reputations self) = n self ->
  ~ sum (scores self) == 0 ->
  ~ sum (reputations self) == 0 ->
  exists pd,
    calculate_cartel_power self (range (n self)) = Ok pd
    /\ cartel_size pd = n self
    /\ voting_power pd == 1
    /\ can_override pd = true.
Proof.
  intros Hsl Hrl Hs Hr.
  assert (Hm : length (repeat true (n self)) = n self) by apply repeat_length.
  unfold range. rewrite <- (mask_members_all (n self) 0).
  destruct (mask_power_returns self Hsl Hrl _ Hm Hs Hr) as [pd Hpd].
  destruct (mask_power_Ok self Hsl Hrl _ Hm pd Hpd) as [_ [_ [Hvp Hco]]].
  exists pd. split; [exact Hpd|].
  assert (Hone : voting_power pd == 1).
  { rewrite Hvp. rewrite <- Hsl at 1. rewrite <- Hrl at 1.
    rewrite !selected_all. field. split; assumption. }
  split; [|split; [exact Hone|]].
  - unfold calculate_cartel_power in Hpd.
    destruct (mapM _ _) as [ss|]; [|discriminate Hpd]. cbn [bind] in Hpd.
    destruct (mapM _ _) as [rs|]; [|discriminate Hpd]. cbn [bind] in Hpd.
    repeat (destruct (pydiv _ _); [|discriminate Hpd]; cbn [bind] in Hpd).
    injection Hpd as <-. cbn [cartel_size].
    rewrite mask_members_all. apply length_seq.
  - rewrite Hco. rewrite (geb_compat _ 1 _ Hone). reflexivity.
Qed.

Lemma full_population_power_witness :
  exists pd,
    calculate_cartel_power sample8 (range 8) = Ok pd
    /\ cartel_size pd = 8%nat
    /\ voting_power pd == 1
    /\ can_override pd = true.
Proof.
  apply (full_population_power sample8); first [reflexivity | discriminate].
Defined.

(** X16: a coalition and the rest of the population share the power between
    them: their voting powers add up to 1, so they cannot both override. *)
Theorem complementary_coalitions (self : LegislatorCartel) (m : list bool)
    (pd pd' : PowerData) :
  length (scores self) = n self ->
  length (reputations self) = n self ->
  length m = n self ->
  calculate_cartel_power self (mask_members m 0) = Ok pd ->
  calculate_cartel_power self (mask_members (map negb m) 0) = Ok pd' ->
  voting_power pd + voting_power pd' == 1
  /\ ~ (can_override pd = true /\ can_override pd' = true).
Proof.
  intros Hsl Hrl Hm Hpd Hpd'.
  assert (Hm' : length (map negb m) = n self) by (rewrite length_map; exact Hm).
  destruct (mask_power_Ok self Hsl Hrl m Hm pd Hpd) as [Hs [Hr [Hvp Hco]]].
  destruct (mask_power_Ok self Hsl Hrl _ Hm' pd' Hpd') as [_ [_ [Hvp' Hco']]].
  assert (Hsum : voting_power pd + voting_power pd' == 1).
  { rewrite Hvp, Hvp', !sum_selected.
    pose proof (dot_complement (scores self) m (eq_trans Hm (eq_sym Hsl))) as Es.
    pose proof (dot_complement (reputations self) m
                  (eq_trans Hm (eq_sym Hrl))) as Er.
    setoid_replace
      (0.6 * dot (scores self) m / sum (scores self)
       + 0.4 * dot (reputations self) m / sum (reputations self)
       + (0.6 * dot (scores self) (map negb m) / sum (scores self)
          + 0.4 * dot (reputations self) (map negb m)
            / sum (reputations self)))
      with (0.6 * (dot (scores self) m + dot (scores self) (map negb m))
            / sum (scores self)
            + 0.4 * (dot (reputations self) m
                     + dot (reputations self) (map negb m))
              / sum (reputations self))
      by (field; split; assumption).
    rewrite Es, Er. field. split; assumption. }
  split; [exact Hsum|].
  intros [H1 H2]. rewrite Hco in H1. rewrite Hco' in H2.
  apply geb_true in H1. apply geb_true in H2.
  unfold OVERRIDE_THRESHOLD in *. lra.
Qed.

Lemma complementary_coalitions_witness :
  exists pd pd',
    calculate_cartel_power sample8 [0; 2; 6]%nat = Ok pd
    /\ calculate_cartel_power sample8 [1; 3; 4; 5; 7]%nat = Ok pd'
    /\ voting_power pd + voting_power pd' == 1.
Proof.
  assert (H1 : exists pd, calculate_cartel_power sample8 [0; 2; 6]%nat = Ok pd)
    by (eexists; reflexivity).
  assert (H2 : exists pd,
            calculate_cartel_power sample8 [1; 3; 4; 5; 7]%nat = Ok pd)
    by (eexists; reflexivity).
  destruct H1 as [pd H1]. destruct H2 as [pd' H2].
  exists pd. exists pd'. split; [exact H1|]. split; [exact H2|].
  apply (complementary_coalitions sample8
           [true; false; true; false; false; false; true; false] pd pd'
           eq_refl eq_refl eq_refl H1 H2).
Defined.

(** X17: with non-negative scores and reputations, the voting power of a
    coalition of distinct legislators lies between 0 and 1. *)
Theorem coalition_power_bounded (self : LegislatorCartel) (m : list bool)
    (pd : PowerData) :
  length (scores self) = n self ->
  length (reputations self) = n self ->
  Forall (Qle 0) (scores self) ->
  Forall (Qle 0) (reputations self) ->
  length m = n self ->
  calculate_cartel_power self (mask_members m 0) = Ok pd ->
  0 <= voting_power pd <= 1.
Proof.
  intros Hsl Hrl Hsn Hrn Hm Hpd.
  destruct (mask_power_Ok self Hsl Hrl m Hm pd Hpd) as [Hs [Hr [Hvp _]]].
  rewrite Hvp, !sum_selected.
  destruct (dot_bounds _ m Hsn (eq_trans Hm (eq_sym Hsl))) as [Hs0 Hs1].
  destruct (dot_bounds _ m Hrn (eq_trans Hm (eq_sym Hrl))) as [Hr0 Hr1].
  assert (Hsp : 0 < sum (scores self))
    by (pose proof (sum_nonneg _ Hsn); lra).
  assert (Hrp : 0 < sum (reputations self))
    by (pose proof (sum_nonneg _ Hrn); lra).
  assert (Ha0 : 0 <= 0.6 * dot (scores self) m / sum (scores self))
    by (apply Qle_shift_div_l; [exact Hsp | lra]).
  assert (Ha1 : 0.6 * dot (scores self) m / sum (scores self) <= 0.6)
    by (apply Qle_shift_div_r; [exact Hsp | lra]).
  assert (Hb0 : 0 <= 0.4 * dot (reputations self) m / sum (reputations self))
    by (apply Qle_shift_div_l; [exact Hrp | lra]).
  assert (Hb1 : 0.4 * dot (reputations self) m / sum (reputations self) <= 0.4)
    by (apply Qle_shift_div_r; [exact Hrp | lra]).
  split; lra.
Qed.

Lemma coalition_power_bounded_witness :
  exists pd,
    calculate_cartel_power sample8 [0; 2; 6]%nat = Ok pd
    /\ 0 <= voting_power pd <= 1.
Proof.
  assert (H1 : exists pd, calculate_cartel_power sample8 [0; 2; 6]%nat = Ok pd)
    by (eexists; reflexivity).
  destruct H1 as [pd H1]. exists pd. split; [exact H1|].
  apply (coalition_power_bounded sample8
           [true; false; true; false; false; false; true; false] pd
           eq_refl eq_refl).
  - repeat constructor; discriminate.
  - repeat constructor; discriminate.
  - reflexivity.
  - exact H1.
Defined.

Lemma sum_app (xs ys : list Q) : sum (xs ++ ys) == sum xs + sum ys.
Proof.
  induction xs as [|x xs IH].
  - cbn [app]. rewrite sum_nil. ring.
  - cbn [app]. rewrite !sum_cons, IH. ring.
Qed.

Lemma mapM_app {A B : Type} (f : A -> result B) (xs ys : list A)
    (xs' ys' : list B) :
  mapM f xs = Ok xs' -> mapM f ys = Ok ys' ->
  mapM f (xs ++ ys) = Ok (xs' ++ ys').
Proof.
  revert xs'. induction xs as [|x xs IH]; intros xs' Hx Hy.
  - injection Hx as <-. exact Hy.
  - cbn [mapM] in Hx. destruct (f x) as [y|] eqn:Ey; [|discriminate Hx].
    cbn [bind] in Hx.
    destruct (mapM f xs) as [zs|]; [|discriminate Hx]. cbn [bind] in Hx.
    injection Hx as <-. cbn [app mapM]. rewrite Ey. cbn [bind].
    rewrite (IH zs eq_refl Hy). reflexivity.
Qed.

(** A successful power computation, read back. *)
Lemma cartel_power_Ok (self : LegislatorCartel) (members_ : list nat)
    (pd : PowerData) :
  calculate_cartel_power self members_ = Ok pd ->
  exists ss rs,
    mapM (getitem (scores self)) members_ = Ok ss
    /\ mapM (getitem (reputations self)) members_ = Ok rs
    /\ ~ sum (scores self) == 0 /\ ~ sum (reputations self) == 0
    /\ pd = {| cartel_size := length members_;
               voting_power := 0.6 * sum ss / sum (scores self)
                               + 0.4 * sum rs / sum (reputations self);
               can_override :=
                 geb (0.6 * sum ss / sum (scores self)
                      + 0.4 * sum rs / sum (reputations self))
                     OVERRIDE_THRESHOLD;
               score_share := sum ss / sum (scores self);
               rep_share := sum rs / sum (reputations self) |}.
Proof.
  unfold calculate_cartel_power. intro H.
  destruct (mapM (getitem (scores self)) members_) as [ss|];
    [|discriminate H]. cbn [bind] in H.
  destruct (mapM (getitem (reputations self)) members_) as [rs|];
    [|discriminate H]. cbn [bind] in H.
  destruct (pydiv (0.6 * sum ss) _) as [q1|] eqn:E1; [|discriminate H].
  apply pydiv_Ok in E1. destruct E1 as [Hs ->]. cbn [bind] in H.
  destruct (pydiv (0.4 * sum rs) _) as [q2|] eqn:E2; [|discriminate H].
  apply pydiv_Ok in E2. destruct E2 as [Hr ->]. cbn [bind] in H.
  rewrite (pydiv_nonzero _ _ Hs), (pydiv_nonzero _ _ Hr) in H.
  cbn [bind] in H. injection H as <-.
  exists ss. exists rs. repeat split; assumption.
Qed.

Lemma cartel_power_intro (self : LegislatorCartel) (members_ : list nat)
    (ss rs : list Q) :
  mapM (getitem (scores self)) members_ = Ok ss ->
  mapM (getitem (reputations self)) members_ = Ok rs ->
  ~ sum (scores self) == 0 -> ~ sum (reputations self) == 0 ->
  calculate_cartel_power self members_
  = Ok {| cartel_size := length members_;
          voting_power := 0.6 * sum ss / sum (scores self)
                          + 0.4 * sum rs / sum (reputations self);
          can_override :=
            geb (0.6 * sum ss / sum (scores self)
                 + 0.4 * sum rs / sum (reputations self))
                OVERRIDE_THRESHOLD;
          score_share := sum ss / sum (scores self);
          rep_share := sum rs / sum (reputations self) |}.
Proof.
  intros Hss Hrs Hs Hr. unfold calculate_cartel_power.
  rewrite Hss, Hrs. cbn [bind].
  rewrite !(pydiv_nonzero _ _ Hs), !(pydiv_nonzero _ _ Hr). reflexivity.
Qed.

(** X18: voting power is additive: the power of two member lists taken
    together (a legislator listed twice counts twice) is the sum of their
    powers, and so is the size. *)
Theorem cartel_power_additive (self : LegislatorCartel)
    (members_a members_b : list nat) (pa pb : PowerData) :
  calculate_cartel_power self members_a = Ok pa ->
  calculate_cartel_power self members_b = Ok pb ->
  exists pab,
    calculate_cartel_power self (members_a ++ members_b) = Ok pab
    /\ voting_power pab == voting_power pa + voting_power pb
    /\ cartel_size pab = (cartel_size pa + cartel_size pb)%nat.
Proof.
  intros Ha Hb.
  destruct (cartel_power_Ok _ _ _ Ha) as [sa [ra [Hsa [Hra [Hs [Hr ->]]]]]].
  destruct (cartel_power_Ok _ _ _ Hb) as [sb [rb [Hsb [Hrb [_ [_ ->]]]]]].
  rewrite (cartel_power_intro self _ _ _
             (mapM_app _ _ _ _ _ Hsa Hsb) (mapM_app _ _ _ _ _ Hra Hrb) Hs Hr).
  eexists. split; [reflexivity|].
  cbn [voting_power cartel_size]. split; [|apply length_app].
  rewrite !sum_app. field. split; assumption.
Qed.

Lemma cartel_power_additive_witness :
  exists pa pb pab,
    calculate_cartel_power sample8 [0; 2]%nat = Ok pa
    /\ calculate_cartel_power sample8 [6; 2]%nat = Ok pb
    /\ calculate_cartel_power sample8 [0; 2; 6; 2]%nat = Ok pab
    /\ voting_power pab == voting_power pa + voting_power pb.
Proof.
  assert (H1 : exists pd, calculate_cartel_power sample8 [0; 2]%nat = Ok pd)
    by (eexists; reflexivity).
  assert (H2 : exists pd, calculate_cartel_power sample8 [6; 2]%nat = Ok pd)
    by (eexists; reflexivity).
  destruct H1 as [pa H1]. destruct H2 as [pb H2].
  destruct (cartel_power_additive sample8 [0; 2]%nat [6; 2]%nat pa pb H1 H2)
    as [pab [Hab [Hv _]]].
  exists pa. exists pb. exists pab. repeat split; assumption.
Defined.

(** ** The exact enumeration *)

(** X19: with fewer than seven legislators [brute_force_cartels] examines no
    coalition at all: it returns the empty list, whatever the scores and
    reputations (zero totals and short lists included). *)
Theorem brute_force_small_population (self : LegislatorCartel) :
  (n self < MIN_LEGISLATORS)%nat ->
  candidate_cartels self = [] /\ brute_force_cartels self = Ok [].
Proof.
  intro Hn.
  assert (Hc : candidate_cartels self = []).
  { unfold candidate_cartels, range2.
    replace (n self + 1 - MIN_LEGISLATORS)%nat with 0%nat by lia.
    reflexivity. }
  split; [exact Hc|]. unfold brute_force_cartels. rewrite Hc. reflexivity.
Qed.

Lemma brute_force_small_population_witness :
  brute_force_cartels (mkCartel 6 [0; 0] [] 1000) = Ok [].
Proof.
  apply (brute_force_small_population (mkCartel 6 [0; 0] [] 1000)).
  unfold MIN_LEGISLATORS. cbn [n]. lia.
Defined.

Lemma combinations_length {A : Type} (xs : list A) (k : nat) (c : list A) :
  In c (combinations xs k) -> length c = k.
Proof.
  revert k c. induction xs as [|x xs IH]; intros [|k] c Hin; simpl in Hin.
  - destruct Hin as [<- | []]. reflexivity.
  - destruct Hin.
  - destruct Hin as [<- | []]. reflexivity.
  - apply in_app_or in Hin. destruct Hin as [Hin | Hin].
    + apply in_map_iff in Hin. destruct Hin as [c' [<- Hc']].
      simpl. f_equal. exact (IH k c' Hc').
    + exact (IH (S k) c Hin).
Qed.

Lemma mask_members_bounds (m : list bool) (start : nat) :
  Forall (fun i => (start <= i < start + length m)%nat) (mask_members m start).
Proof.
  revert start. induction m as [|b m IH]; intro start; [constructor|].
  assert (Htail : Forall (fun i => (start <= i < start + length (b :: m))%nat)
                         (mask_members m (S start))).
  { eapply Forall_impl; [|exact (IH (S start))]. cbv beta.
    intros i Hi. cbn [length]. lia. }
  destruct b; cbn [mask_members]; [|exact Htail].
  constructor; [cbn [length]; lia | exact Htail].
Qed.

Lemma mask_members_NoDup (m : list bool) (start : nat) :
  NoDup (mask_members m start).
Proof.
  revert start. induction m as [|b m IH]; intro start; [constructor|].
  destruct b; cbn [mask_members]; [|apply IH].
  constructor; [|apply IH].
  intro Hin. pose proof (mask_members_bounds m (S start)) as Hb.
  rewrite Forall_forall in Hb. specialize (Hb start Hin). lia.
Qed.

Lemma insert_by_cost_sorted (e : CartelEntry) (es : list CartelEntry) :
  StronglySorted (fun a b => cost a <= cost b) es ->
  StronglySorted (fun a b => cost a <= cost b) (insert_by_cost e es).
Proof.
  induction 1 as [|e' es Hs IH Hall].
  - cbn. constructor; constructor.
  - cbn [insert_by_cost].
    destruct (Qle_bool (cost e) (cost e')) eqn:Ec.
    + apply Qle_bool_iff in Ec. constructor.
      * constructor; assumption.
      * constructor; [exact Ec|].
        eapply Forall_impl; [|exact Hall]. cbv beta. intros a Ha.
        eapply Qle_trans; eassumption.
    + assert (Hlt : cost e' < cost e)
        by (apply (geb_false (cost e') (cost e)); exact Ec).
      constructor; [exact IH|].
      apply Forall_forall. intros a Ha.
      apply insert_by_cost_In in Ha. destruct Ha as [-> | Ha].
      * apply Qlt_le_weak. exact Hlt.
      * rewrite Forall_forall in Hall. exact (Hall a Ha).
Qed.

Lemma sorted_by_cost_sorted (es : list CartelEntry) :
  StronglySorted (fun a b => cost a <= cost b) (sorted_by_cost es).
Proof.
  induction es as [|e es IH]; [constructor|].
  cbn [sorted_by_cost fold_right]. apply insert_by_cost_sorted. exact IH.
Qed.

(** Where an entry of the enumeration comes from. *)
Lemma brute_force_entry_origin (self : LegislatorCartel)
    (es : list CartelEntry) (e : CartelEntry) :
  brute_force_cartels self = Ok es -> In e es ->
  exists cartel,
    In cartel (candidate_cartels self)
    /\ brute_force_entry self cartel = Ok (Some e).
Proof.
  unfold brute_force_cartels. intros Hbf Hin.
  destruct (mapM (brute_force_entry self) (candidate_cartels self))
    as [entries|] eqn:E; [|discriminate Hbf].
  cbn [bind] in Hbf. injection Hbf as <-.
  apply (proj1 (sorted_by_cost_In _ _)) in Hin.
  apply (proj1 (keep_some_In _ _)) in Hin.
  exact (mapM_In _ _ _ _ E Hin).
Qed.

(** X20: whatever [brute_force_cartels] returns is sorted by ascending cost,
    and each entry is a coalition of at least seven and at most [n] distinct
    legislators of the population, whose recorded power reaches the override
    threshold and whose recorded cost is its attack cost. *)
Theorem brute_force_sorted_and_sound (self : LegislatorCartel)
    (es : list CartelEntry) :
  brute_force_cartels self = Ok es ->
  StronglySorted (fun a b => cost a <= cost b) es
  /\ Forall (fun e =>
       size e = length (members e)
       /\ (MIN_LEGISLATORS <= size e <= n self)%nat
       /\ NoDup (members e)
       /\ Forall (fun i => (i < n self)%nat) (members e)
       /\ OVERRIDE_THRESHOLD <= entry_power e
       /\ calculate_attack_cost self (members e) = Ok (cost e)) es.
Proof.
  intro Hbf. split.
  - unfold brute_force_cartels in Hbf.
    destruct (mapM _ _) as [entries|]; [|discriminate Hbf].
    cbn [bind] in Hbf. injection Hbf as <-. apply sorted_by_cost_sorted.
  - apply Forall_forall. intros e Hin.
    destruct (brute_force_entry_origin self es e Hbf Hin)
      as [cartel [Hcand Hentry]].
    unfold brute_force_entry in Hentry.
    destruct (calculate_cartel_power self cartel) as [pd|] eqn:Epd;
      [|discriminate Hentry].
    cbn [bind] in Hentry.
    destruct (can_override pd) eqn:Eov; [|discriminate Hentry].
    destruct (calculate_attack_cost self cartel) as [c|] eqn:Ec;
      [|discriminate Hentry].
    cbn [bind] in Hentry. injection Hentry as <-.
    cbn [size members cost entry_power].
    destruct (candidate_cartels_mask self cartel Hcand) as [m [Hm Hmask]].
    unfold candidate_cartels in Hcand. apply in_flat_map in Hcand.
    destruct Hcand as [k [Hk Hc]].
    apply combinations_length in Hc.
    unfold range2 in Hk. apply in_seq in Hk.
    split; [reflexivity|]. split; [|split; [|split; [|split]]].
    + rewrite Hc.
      assert (Hle : (length cartel <= n self)%nat).
      { rewrite Hmask, <- Hm.
        clear. generalize 0%nat. induction m as [|b m IH]; intro s;
          [apply Nat.le_refl|].
        destruct b; cbn [mask_members length]; specialize (IH (S s)); lia. }
      lia.
    + rewrite Hmask. apply mask_members_NoDup.
    + rewrite Hmask.
      eapply Forall_impl; [|exact (mask_members_bounds m 0)]. cbv beta.
      intros i Hi. lia.
    + destruct (cartel_power_Ok _ _ _ Epd) as [ss [rs [_ [_ [_ [_ Hpd]]]]]].
      rewrite Hpd in Eov |- *. cbn [can_override voting_power] in *.
      apply geb_true in Eov. exact Eov.
    + exact Ec.
Qed.

Lemma brute_force_sorted_and_sound_witness :
  exists es,
    brute_force_cartels sample8 = Ok es
    /\ StronglySorted (fun a b => cost a <= cost b) es
    /\ es <> [].
Proof.
  assert (H : exists b rest, brute_force_cartels sample8 = Ok (b :: rest)).
  { eexists. eexists. vm_compute. reflexivity. }
  destruct H as [b [rest H]]. exists (b :: rest).
  split; [exact H|]. split; [|discriminate].
  exact (proj1 (brute_force_sorted_and_sound sample8 (b :: rest) H)).
Defined.

Lemma mask_members_length_le (m : list bool) (start : nat) :
  (length (mask_members m start) <= length m)%nat.
Proof.
  revert start. induction m as [|b m IH]; intro start; [apply Nat.le_refl|].
  destruct b; cbn [mask_members length]; specialize (IH (S start)); lia.
Qed.

(** Every assignment's coalition is among the combinations of its size. *)
Lemma combinations_complete (m : list bool) (start : nat) :
  In (mask_members m start)
     (combinations (seq start (length m)) (length (mask_members m start))).
Proof.
  revert start. induction m as [|b m IH]; intro start.
  - left. reflexivity.
  - cbn [length seq]. destruct b; cbn [mask_members].
    + cbn [length combinations]. apply in_or_app. left.
      apply in_map. apply IH.
    + destruct (mask_members m (S start)) as [|i rest] eqn:E.
      * left. reflexivity.
      * cbn [length combinations]. apply in_or_app. right.
        specialize (IH (S start)). rewrite E in IH. exact IH.
Qed.

Lemma mapM_In_image {A B : Type} (f : A -> result B) (xs : list A)
    (ys : list B) (x : A) :
  mapM f xs = Ok ys -> In x xs -> exists y, f x = Ok y /\ In y ys.
Proof.
  revert ys. induction xs as [|a xs IH]; intros ys H Hin; [destruct Hin|].
  cbn [mapM] in H. destruct (f a) as [y0|] eqn:Ea; [|discriminate H].
  cbn [bind] in H. destruct (mapM f xs) as [ys'|]; [|discriminate H].
  cbn [bind] in H. injection H as <-.
  destruct Hin as [<- | Hin].
  - exists y0. split; [exact Ea | left; reflexivity].
  - destruct (IH ys' eq_refl Hin) as [y [Hy Hyin]].
    exists y. split; [exact Hy | right; exact Hyin].
Qed.

(** X21: the enumeration misses no coalition of seven or more: whenever
    [brute_force_cartels] returns, every set of at least seven distinct
    legislators that can override appears among the returned entries. *)
Theorem brute_force_complete (self : LegislatorCartel) (es : list CartelEntry)
    (m : list bool) (pd : PowerData) :
  brute_force_cartels self = Ok es ->
  length m = n self ->
  (MIN_LEGISLATORS <= length (mask_members m 0))%nat ->
  calculate_cartel_power self (mask_members m 0) = Ok pd ->
  can_override pd = true ->
  exists e, In e es /\ members e = mask_members m 0
            /\ entry_power e = voting_power pd.
Proof.
  intros Hbf Hm Hsize Hpd Hov.
  assert (Hcand : In (mask_members m 0) (candidate_cartels self)).
  { unfold candidate_cartels. apply in_flat_map.
    exists (length (mask_members m 0)). split.
    - unfold range2. apply in_seq.
      pose proof (mask_members_length_le m 0). lia.
    - unfold range. rewrite <- Hm. apply combinations_complete. }
  unfold brute_force_cartels in Hbf.
  destruct (mapM (brute_force_entry self) (candidate_cartels self))
    as [entries|] eqn:E; [|discriminate Hbf].
  cbn [bind] in Hbf. injection Hbf as <-.
  destruct (mapM_In_image _ _ _ _ E Hcand) as [y [Hy Hyin]].
  unfold brute_force_entry in Hy. rewrite Hpd in Hy. cbn [bind] in Hy.
  rewrite Hov in Hy.
  destruct (calculate_attack_cost self (mask_members m 0)) as [c|];
    [|discriminate Hy].
  cbn [bind] in Hy. injection Hy as <-.
  eexists. split.
  - apply sorted_by_cost_In. apply keep_some_In. exact Hyin.
  - split; reflexivity.
Qed.

Lemma brute_force_complete_witness :
  exists es e,
    brute_force_cartels sample8 = Ok es
    /\ In e es /\ members e = [0; 1; 2; 3; 5; 6; 7]%nat.
Proof.
  assert (H : exists es, brute_force_cartels sample8 = Ok es).
  { eexists. vm_compute. reflexivity. }
  destruct H as [es H].
  assert (Hp : exists pd,
            calculate_cartel_power sample8 [0; 1; 2; 3; 5; 6; 7]%nat = Ok pd
            /\ can_override pd = true).
  { eexists. split; vm_compute; reflexivity. }
  destruct Hp as [pd [Hpd Hov]].
  destruct (brute_force_complete sample8 es
              [true; true; true; true; false; true; true; true] pd
              H eq_refl) as [e [Hin [Hmem _]]].
  - unfold MIN_LEGISLATORS. cbn. lia.
  - exact Hpd.
  - exact Hov.
  - exists es. exists e. split; [exact H|]. split; [exact Hin | exact Hmem].
Defined.

(** ** The LP strategy on its own *)



Lemma select_members_None (sol : LpSolution) (idx : list nat) (i : nat) :
  In i idx -> varValue sol i = None ->
  select_members sol idx = Err TypeError.
Proof.
  induction idx as [|j idx IH]; intros Hin Hnone; [destruct Hin|].
  cbn [select_members].
  destruct (varValue sol j) as [v|] eqn:Ej; [|reflexivity].
  destruct Hin as [-> | Hin]; [congruence|].
  rewrite (IH Hin Hnone). reflexivity.
Qed.

(** X23: [find_minimum_cartel] never checks the solver's status: if the
    solver leaves any of the [n] variables without a value (as on an
    unsolved program), the call raises [TypeError] when it compares that
    value with 0.5. *)
Theorem find_minimum_cartel_unassigned (solve : Solver)
    (self : LegislatorCartel) (prob : LpProblem) (i : nat) :
  lp_problem self = Ok prob ->
  (i < n self)%nat ->
  varValue (solve prob) i = None ->
  find_minimum_cartel solve self = Err TypeError.
Proof.
  intros Hprob Hi Hnone. unfold find_minimum_cartel.
  rewrite Hprob. cbn [bind].
  rewrite (select_members_None (solve prob) (range (n self)) i);
    [reflexivity | | exact Hnone].
  unfold range. apply in_seq. lia.
Qed.

Lemma find_minimum_cartel_unassigned_witness :
  find_minimum_cartel
    (fun p => {| status := LpStatusNotSolved;
                 varValues := repeat None (length (objective p)) |})
    sample8
  = Err TypeError.
Proof.
  assert (H : exists prob, lp_problem sample8 = Ok prob)
    by (eexists; reflexivity).
  destruct H as [prob H].
  apply (find_minimum_cartel_unassigned _ sample8 prob 0 H).
  - cbn. lia.
  - unfold varValue. cbn [varValues].
    destruct (length (objective prob)); reflexivity.
Defined.

Lemma mapM_first_error {A B : Type} (f : A -> result B) (xs zs : list A)
    (y : A) (ys : list B) (e : exn) :
  mapM f xs = Ok ys -> f y = Err e -> mapM f (xs ++ y :: zs) = Err e.
Proof.
  revert ys. induction xs as [|x xs IH]; intros ys Hxs Hy.
  - cbn [app mapM]. rewrite Hy. reflexivity.
  - cbn [mapM] in Hxs. destruct (f x) as [b|] eqn:Ex; [|discriminate Hxs].
    cbn [bind] in Hxs.
    destruct (mapM f xs) as [bs|]; [|discriminate Hxs].
    cbn [app mapM]. rewrite Ex. cbn [bind].
    rewrite (IH bs eq_refl Hy). reflexivity.
Qed.

(** X24: a population announced larger than its list of reputations makes
    [find_minimum_cartel] raise [IndexError] while it collects the costs,
    before any program is built or solved. *)
Theorem find_minimum_cartel_short_reputations (solve : Solver)
    (self : LegislatorCartel) :
  (length (reputations self) < n self)%nat ->
  lp_problem self = Err IndexError
  /\ find_minimum_cartel solve self = Err IndexError.
Proof.
  intro Hshort.
  assert (Hcosts : mapM (lp_cost self) (range (n self)) = Err IndexError).
  { unfold range.
    replace (n self)
      with (length (reputations self)
            + S (n self - S (length (reputations self))))%nat by lia.
    rewrite seq_app. cbn [seq Nat.add].
    eapply mapM_first_error.
    - apply (mapM_getitem_then (reputations self) _ (reputations self)
               (fun r => market_value self * 0.025 * inject_Z TERM_LENGTH_WEEKS
                         + r * SLASH_PENALTY * 0.30)
               (lp_cost self) (fun i => eq_refl)).
      apply (mapM_getitem_range (reputations self) []).
    - unfold lp_cost, getitem.
      assert (Hnone : nth_error (reputations self)
                                (length (reputations self)) = None)
        by (apply nth_error_None; apply Nat.le_refl).
      rewrite Hnone. reflexivity. }
  assert (Hprob : lp_problem self = Err IndexError).
  { unfold lp_problem. rewrite Hcosts. reflexivity. }
  split; [exact Hprob|].
  unfold find_minimum_cartel. rewrite Hprob. reflexivity.
Qed.

Lemma find_minimum_cartel_short_reputations_witness :
  find_minimum_cartel exhaustive_solve (mkCartel 3 [10; 20; 30] [5; 6] 1000)
  = Err IndexError.
Proof.
  apply (find_minimum_cartel_short_reputations exhaustive_solve
           (mkCartel 3 [10; 20; 30] [5; 6] 1000)).
  cbn. lia.
Defined.

(** ** One scenario of the Monte Carlo run *)

(** X25: in a row of [simulate_cartel_scenarios] the detection probability
    is 5% per cartel member, capped at 95% (reached from 19 members on), and
    an attack on a market of non-negative value is flagged profitable only
    if the cartel's cost is below half the market value. *)
Theorem scenario_row_profitability (solve : Solver) (trial_ : Z) (n_legs : nat)
    (market_val : Q) (performance_scores reputation_values : list Q)
    (row : CartelScenarios.ScenarioRow) :
  CartelScenarios.scenario_row solve trial_ n_legs market_val
    performance_scores reputation_values = Ok row ->
  0 <= CartelScenarios.detection_prob row <= 0.95
  /\ CartelScenarios.detection_prob row
     == Qmin (0.05 * inject_Z (Z.of_nat (CartelScenarios.row_min_cartel_size row)))
             0.95
  /\ ((19 <= CartelScenarios.row_min_cartel_size row)%nat ->
      CartelScenarios.detection_prob row == 0.95)
  /\ (0 <= market_val -> CartelScenarios.profitable row = true ->
      CartelScenarios.cartel_cost row < 0.5 * market_val).
Proof.
  unfold CartelScenarios.scenario_row. intro H.
  destruct (find_minimum_cartel solve _) as [mc|]; [|discriminate H].
  cbn [bind] in H. cbv zeta in H.
  destruct (total_cost mc) as [c|]; [|discriminate H].
  injection H as <-.
  cbn [CartelScenarios.detection_prob CartelScenarios.row_min_cartel_size
       CartelScenarios.profitable CartelScenarios.cartel_cost].
  set (k := inject_Z (Z.of_nat (min_cartel_size mc))).
  assert (Hk : 0 <= k).
  { unfold k. change 0 with (inject_Z 0). rewrite <- Zle_Qle. lia. }
  assert (Hdp : 0 <= Qmin (0.05 * k) 0.95 <= 0.95).
  { split; [apply Q.min_glb; lra | apply Q.le_min_r]. }
  split; [exact Hdp|]. split; [reflexivity|]. split.
  - intro H19. apply Q.min_r.
    assert (H19q : inject_Z 19 <= k).
    { unfold k. rewrite <- Zle_Qle. lia. }
    change (inject_Z 19) with 19 in H19q. lra.
  - intros Hmv Hprof. apply gtb_true in Hprof.
    destruct Hdp as [Hd0 Hd1]. set (dp := Qmin (0.05 * k) 0.95) in *.
    assert (Hgain : market_val * 0.50 * (1 - dp) <= market_val * 0.50).
    { setoid_replace (market_val * 0.50) with (market_val * 0.50 * 1)
        at 2 by ring.
      destruct (Qle_lt_or_eq _ _ Hmv) as [Hpos | Hz].
      - apply Qmult_le_l; lra.
      - rewrite <- Hz. rewrite !Qmult_0_l. apply Qle_refl. }
    lra.
Qed.

Lemma scenario_row_profitability_witness :
  exists row,
    CartelScenarios.scenario_row exhaustive_solve 0 8 1000
      (scores sample8) (reputations sample8) = Ok row
    /\ 0 <= CartelScenarios.detection_prob row <= 0.95.
Proof.
  assert (H : exists row,
            CartelScenarios.scenario_row exhaustive_solve 0 8 1000
              (scores sample8) (reputations sample8) = Ok row).
  { eexists. vm_compute. reflexivity. }
  destruct H as [row H]. exists row. split; [exact H|].
  exact (proj1 (scenario_row_profitability exhaustive_solve 0 8 1000
                  (scores sample8) (reputations sample8) row H)).
Defined.

(** ** Enlarging a coalition *)

Lemma attack_cost_reads_reputations (self : LegislatorCartel)
    (cartel idx : list nat) (costs : list Q) :
  mapM (member_cost self cartel) idx = Ok costs ->
  exists reps, mapM (getitem (reputations self)) idx = Ok reps.
Proof.
  revert costs. induction idx as [|i idx IH]; intros costs H.
  - exists []. reflexivity.
  - cbn [mapM] in H. unfold member_cost at 1 in H.
    destruct (getitem (reputations self) i) as [r|] eqn:Er;
      [|discriminate H].
    cbn [bind] in H.
    destruct (mapM (member_cost self cartel) idx) as [cs|];
      [|discriminate H].
    destruct (IH cs eq_refl) as [reps Hreps].
    exists (r :: reps). cbn [mapM]. rewrite Er. cbn [bind].
    rewrite Hreps. reflexivity.
Qed.

Lemma getitem_In {A : Type} (xs : list A) (i : nat) (x : A) :
  getitem xs i = Ok x -> In x xs.
Proof.
  unfold getitem. destruct (nth_error xs i) as [a|] eqn:E; [|discriminate].
  intro H. injection H as <-. exact (nth_error_In _ _ E).
Qed.

Lemma mapM_getitem_Forall {A : Type} (P : A -> Prop) (xs : list A)
    (idx : list nat) (vals : list A) :
  Forall P xs -> mapM (getitem xs) idx = Ok vals -> Forall P vals.
Proof.
  intros HP H. apply Forall_forall. intros v Hv.
  destruct (mapM_In _ _ _ _ H Hv) as [i [_ Hi]].
  rewrite Forall_forall in HP. apply HP. exact (getitem_In _ _ _ Hi).
Qed.

(** X26: with a non-negative market value and non-negative reputations,
    taking one more legislator into a coalition never lowers its attack
    cost. *)
Theorem attack_cost_grows_with_member (self : LegislatorCartel)
    (cartel : list nat) (j : nat) (ca : Q) :
  0 <= market_value self ->
  Forall (Qle 0) (reputations self) ->
  calculate_attack_cost self cartel = Ok ca ->
  (j < length (reputations self))%nat ->
  exists cb, calculate_attack_cost self (cartel ++ [j]) = Ok cb /\ ca <= cb.
Proof.
  intros Hmv Hreps Hca Hj.
  assert (Hra : exists ra, mapM (getitem (reputations self)) cartel = Ok ra).
  { unfold calculate_attack_cost in Hca.
    destruct (mapM (member_cost self cartel) cartel) as [costs|] eqn:E;
      [|discriminate Hca].
    exact (attack_cost_reads_reputations self cartel cartel costs E). }
  destruct Hra as [ra Hra].
  assert (Hrj : exists rj, getitem (reputations self) j = Ok rj).
  { unfold getitem. destruct (nth_error (reputations self) j) eqn:E.
    - eexists. reflexivity.
    - apply nth_error_None in E. lia. }
  destruct Hrj as [rj Hrj].
  assert (Hrb : mapM (getitem (reputations self)) (cartel ++ [j])
                = Ok (ra ++ [rj])).
  { apply mapM_app; [exact Hra|]. cbn [mapM]. rewrite Hrj. reflexivity. }
  rewrite (attack_cost_unfold self cartel ra Hra) in Hca.
  cbv zeta in Hca. injection Hca as <-.
  rewrite (attack_cost_unfold self _ _ Hrb). cbv zeta.
  eexists. split; [reflexivity|].
  (* sizes *)
  rewrite length_app. cbn [length]. rewrite Nat.add_1_r, Nat2Z.inj_succ.
  set (k := Z.of_nat (length cartel)).
  assert (Hk : 0 <= inject_Z k).
  { change 0 with (inject_Z 0). rewrite <- Zle_Qle. unfold k. lia. }
  assert (Hk1 : inject_Z (k - 1) == inject_Z k - 1).
  { unfold Z.sub. rewrite inject_Z_plus. reflexivity. }
  assert (Hk2 : inject_Z (Z.succ k - 1) == inject_Z k).
  { replace (Z.succ k - 1)%Z with k by lia. reflexivity. }
  assert (Hk3 : inject_Z (Z.succ k) == inject_Z k + 1).
  { unfold Z.succ. rewrite inject_Z_plus. reflexivity. }
  rewrite Hk1, Hk2.
  (* the two bases *)
  assert (Hlen : inject_Z (Z.of_nat (length ra)) == inject_Z k).
  { rewrite (mapM_length _ _ _ Hra). reflexivity. }
  assert (Hown : 0 <= sum (map (fun r => market_value self * 0.025 * 12
                                         + r * 0.10 * 0.30) ra)).
  { apply sum_nonneg. apply Forall_map.
    eapply Forall_impl; [|exact (mapM_getitem_Forall _ _ _ _ Hreps Hra)].
    cbv beta. intros r Hr. lra. }
  assert (Hownj : 0 <= market_value self * 0.025 * 12 + rj * 0.10 * 0.30).
  { assert (0 <= rj).
    { rewrite Forall_forall in Hreps. apply Hreps.
      exact (getitem_In _ _ _ Hrj). }
    lra. }
  assert (Hsq : 0 <= inject_Z k * inject_Z k)
    by (apply Qmult_le_0_compat; exact Hk).
  assert (Hbase :
    sum (map (fun r => market_value self * 0.025 * 12 + r * 0.10 * 0.30
                       + inject_Z k * 0.1) ra)
    == sum (map (fun r => market_value self * 0.025 * 12 + r * 0.10 * 0.30) ra)
       + inject_Z k * inject_Z k * 0.1).
  { rewrite (sum_map_plus_const
               (fun r => market_value self * 0.025 * 12 + r * 0.10 * 0.30)).
    rewrite Hlen. ring. }
  assert (Hbase' :
    sum (map (fun r => market_value self * 0.025 * 12 + r * 0.10 * 0.30
                       + inject_Z (Z.succ k) * 0.1) (ra ++ [rj]))
    == sum (map (fun r => market_value self * 0.025 * 12 + r * 0.10 * 0.30) ra)
       + (market_value self * 0.025 * 12 + rj * 0.10 * 0.30)
       + (inject_Z k * inject_Z k + 2 * inject_Z k + 1) * 0.1).
  { rewrite (sum_map_plus_const
               (fun r => market_value self * 0.025 * 12 + r * 0.10 * 0.30)).
    rewrite map_app, sum_app. cbn [map]. rewrite sum_cons, sum_nil.
    rewrite length_app. cbn [length]. rewrite Nat.add_1_r, Nat2Z.inj_succ.
    rewrite (mapM_length _ _ _ Hra). fold k. rewrite !Hk3. ring. }
  set (base := sum (map (fun r => market_value self * 0.025 * 12
                                  + r * 0.10 * 0.30 + inject_Z k * 0.1) ra))
    in *.
  set (base' := sum (map (fun r => market_value self * 0.025 * 12
                                   + r * 0.10 * 0.30
                                   + inject_Z (Z.succ k) * 0.1) (ra ++ [rj])))
    in *.
  set (own := sum (map (fun r => market_value self * 0.025 * 12
                                 + r * 0.10 * 0.30) ra)) in *.
  set (ownj := market_value self * 0.025 * 12 + rj * 0.10 * 0.30) in *.
  set (sq := inject_Z k * inject_Z k) in *.
  assert (H0 : 0 <= base) by lra.
  assert (H1 : base <= base') by lra.
  setoid_replace (base + base * (inject_Z k - 1) * 0.05)
    with (base * (1 + (inject_Z k - 1) * 0.05)) by ring.
  setoid_replace (base' + base' * inject_Z k * 0.05)
    with (base' * (1 + inject_Z k * 0.05)) by ring.
  eapply Qle_trans.
  - apply (Qmult_le_compat_r base base'); [exact H1 | lra].
  - rewrite (Qmult_comm base'), (Qmult_comm base' (1 + inject_Z k * 0.05)).
    apply Qmult_le_compat_r; lra.
Qed.

Lemma attack_cost_grows_with_member_witness :
  exists ca cb,
    calculate_attack_cost sample8 [0; 2; 6]%nat = Ok ca
    /\ calculate_attack_cost sample8 [0; 2; 6; 3]%nat = Ok cb
    /\ ca <= cb.
Proof.
  assert (H : exists ca, calculate_attack_cost sample8 [0; 2; 6]%nat = Ok ca)
    by (eexists; reflexivity).
  destruct H as [ca H].
  assert (Hmv : 0 <= market_value sample8) by discriminate.
  assert (Hreps : Forall (Qle 0) (reputations sample8))
    by (repeat constructor; discriminate).
  assert (Hj : (3 < length (reputations sample8))%nat) by (cbn; lia).
  destruct (attack_cost_grows_with_member sample8 [0; 2; 6]%nat 3 ca
              Hmv Hreps H Hj) as [cb [Hcb Hle]].
  exists ca. exists cb. split; [exact H|]. split; [exact Hcb | exact Hle].
Defined.

(** ** The three phases side by side *)

Lemma early_growth_limit_eq (self : SybilSimulation.ReputationWeightedMarket)
    (user : SybilSimulation.User) :
  (100 <= SybilSimulation.blocks_since_creation self < 500)%Z ->
  SybilSimulation.calculate_position_limit self user
  = SybilSimulation.total_liquidity self
    * (0.30 + inject_Z (SybilSimulation.blocks_since_creation self - 100)
              / inject_Z 400 * 0.20).
Proof.
  intros [Hlo Hhi]. unfold SybilSimulation.calculate_position_limit.
  assert (H1 : (SybilSimulation.blocks_since_creation self
                <? SybilSimulation.GENESIS_PHASE_BLOCKS)%Z = false)
    by (apply Z.ltb_ge; exact Hlo).
  assert (H2 : (SybilSimulation.blocks_since_creation self
                <? SybilSimulation.EARLY_GROWTH_BLOCKS)%Z = true)
    by (apply Z.ltb_lt; exact Hhi).
  rewrite H1, H2. reflexivity.
Qed.

(** X27: during Early Growth the limit is the same for every participant,
    starts at 30% of a positive liquidity at elapsed block 100, never
    decreases from one block to the next and stays below 50%; it therefore
    exceeds whatever the same market grants in Genesis (at most 20%) and in
    the Standard phase (at most 5%). *)
Theorem early_growth_most_permissive
    (market0 : SybilSimulation.ReputationWeightedMarket)
    (user other : SybilSimulation.User) (b b' g s : Z) :
  0 < SybilSimulation.total_liquidity market0 ->
  (100 <= b - SybilSimulation.creation_block market0)%Z ->
  (b <= b')%Z ->
  (b' - SybilSimulation.creation_block market0 < 500)%Z ->
  (g - SybilSimulation.creation_block market0 < 100)%Z ->
  (500 <= s - SybilSimulation.creation_block market0)%Z ->
  SybilSimulation.calculate_position_limit
    (SybilAttacks.set_current_block market0 b) user
  = SybilSimulation.calculate_position_limit
      (SybilAttacks.set_current_block market0 b) other
  /\ 0.30 * SybilSimulation.total_liquidity market0
     <= SybilSimulation.calculate_position_limit
          (SybilAttacks.set_current_block market0 b) user
  /\ SybilSimulation.calculate_position_limit
       (SybilAttacks.set_current_block market0 b) user
     <= SybilSimulation.calculate_position_limit
          (SybilAttacks.set_current_block market0 b') user
  /\ SybilSimulation.calculate_position_limit
       (SybilAttacks.set_current_block market0 b') user
     < 0.50 * SybilSimulation.total_liquidity market0
  /\ SybilSimulation.calculate_position_limit
       (SybilAttacks.set_current_block market0 g) user
     < SybilSimulation.calculate_position_limit
         (SybilAttacks.set_current_block market0 b) user
  /\ SybilSimulation.calculate_position_limit
       (SybilAttacks.set_current_block market0 s) user
     < SybilSimulation.calculate_position_limit
         (SybilAttacks.set_current_block market0 b) user.
Proof.
  intros HL Hb Hbb' Hb' Hg Hs.
  set (L := SybilSimulation.total_liquidity market0) in *.
  set (cb := SybilSimulation.creation_block market0) in *.
  assert (Eb : forall u blk, (100 <= blk - cb < 500)%Z ->
    SybilSimulation.calculate_position_limit
      (SybilAttacks.set_current_block market0 blk) u
    = L * (0.30 + inject_Z (blk - cb - 100) / inject_Z 400 * 0.20)).
  { intros u blk H.
    exact (early_growth_limit_eq (SybilAttacks.set_current_block market0 blk)
             u H). }
  assert (Hfrac : forall blk, (100 <= blk - cb < 500)%Z ->
    0 <= inject_Z (blk - cb - 100) / inject_Z 400
    /\ inject_Z (blk - cb - 100) / inject_Z 400 < 1).
  { intros blk [H1 H2]. split.
    - apply Qle_shift_div_l; [reflexivity|]. rewrite Qmult_0_l.
      change 0 with (inject_Z 0). rewrite <- Zle_Qle. lia.
    - apply Qlt_shift_div_r; [reflexivity|]. rewrite Qmult_1_l.
      rewrite <- Zlt_Qlt. lia. }
  assert (Hmono : inject_Z (b - cb - 100) / inject_Z 400
                  <= inject_Z (b' - cb - 100) / inject_Z 400).
  { unfold Qdiv. apply Qmult_le_compat_r; [|discriminate].
    rewrite <- Zle_Qle. lia. }
  rewrite !(Eb user b) by lia. rewrite (Eb other b) by lia.
  rewrite (Eb user b') by lia.
  destruct (Hfrac b) as [Hb0 Hb1]; [lia|].
  destruct (Hfrac b') as [Hb'0 Hb'1]; [lia|].
  set (t := inject_Z (b - cb - 100) / inject_Z 400) in *.
  set (t' := inject_Z (b' - cb - 100) / inject_Z 400) in *.
  assert (Hlow : 0.30 * L <= L * (0.30 + t * 0.20)).
  { rewrite (Qmult_comm 0.30 L). apply Qmult_le_l; [exact HL | lra]. }
  split; [reflexivity|]. split; [exact Hlow|]. split; [|split; [|split]].
  - apply Qmult_le_l; [exact HL | lra].
  - rewrite (Qmult_comm 0.50 L). apply Qmult_lt_l; [exact HL | lra].
  - apply Qle_lt_trans with (0.20 * L);
      [|eapply Qlt_le_trans; [|exact Hlow]].
    + unfold SybilSimulation.calculate_position_limit.
      assert (Hgen : (SybilSimulation.blocks_since_creation
                        (SybilAttacks.set_current_block market0 g)
                      <? SybilSimulation.GENESIS_PHASE_BLOCKS)%Z = true)
        by (apply Z.ltb_lt; exact Hg).
      rewrite Hgen.
      destruct (negb _).
      * apply Qmult_le_0_compat; [discriminate | apply Qlt_le_weak; exact HL].
      * cbv zeta. eapply Qle_trans; [apply Q.le_min_r|].
        cbn [SybilAttacks.set_current_block SybilSimulation.total_liquidity].
        fold L. rewrite Qmult_comm. apply Qle_refl.
    + apply Qmult_lt_r; [exact HL | reflexivity].
  - apply Qle_lt_trans with (0.05 * L);
      [|eapply Qlt_le_trans; [|exact Hlow]].
    + rewrite standard_limit_is_tier_fraction by exact Hs.
      cbn [SybilAttacks.set_current_block SybilSimulation.total_liquidity].
      fold L. rewrite Qmult_comm.
      apply Qmult_le_compat_r; [|apply Qlt_le_weak; exact HL].
      apply (tier_fraction_range (SybilSimulation.reputation user)
               (SybilSimulation.accuracy user)).
    + apply Qmult_lt_r; [exact HL | reflexivity].
Qed.

Lemma early_growth_most_permissive_witness :
  SybilSimulation.calculate_position_limit
    (SybilAttacks.set_current_block (SybilAttacks.init 1000) 600)
    (SybilSimulation.mkUser String.EmptyString 5 20000 0.9 40)
  < SybilSimulation.calculate_position_limit
      (SybilAttacks.set_current_block (SybilAttacks.init 1000) 120)
      (SybilSimulation.mkUser String.EmptyString 5 20000 0.9 40).
Proof.
  apply (early_growth_most_permissive (SybilAttacks.init 1000)
           (SybilSimulation.mkUser String.EmptyString 5 20000 0.9 40)
           (SybilSimulation.mkUser String.EmptyString 5 100 0.5 1)
           120 300 50 600); first [reflexivity | discriminate].
Defined.

(** X28: in Genesis, on a market of positive liquidity, the limit is
    positive exactly for the participants [can_participate_in_genesis]
    admits; outside Genesis that check admits everyone. *)
Theorem genesis_gate (self : SybilSimulation.ReputationWeightedMarket)
    (user : SybilSimulation.User) :
  0 < SybilSimulation.total_liquidity self ->
  ((SybilSimulation.blocks_since_creation self < 100)%Z ->
   (0 < SybilSimulation.calculate_position_limit self user
    <-> SybilSimulation.can_participate_in_genesis self user = true)
   /\ (SybilSimulation.can_participate_in_genesis self user = true
       <-> 1000 <= SybilSimulation.reputation user))
  /\ ((100 <= SybilSimulation.blocks_since_creation self)%Z ->
      SybilSimulation.can_participate_in_genesis self user = true).
Proof.
  intro HL. split.
  - intro Hgen.
    assert (Hb : (SybilSimulation.blocks_since_creation self
                  <? SybilSimulation.GENESIS_PHASE_BLOCKS)%Z = true)
      by (apply Z.ltb_lt; exact Hgen).
    assert (Hcan : SybilSimulation.can_participate_in_genesis self user
                   = geb (SybilSimulation.reputation user)
                         SybilSimulation.MIN_REP_FOR_GENESIS).
    { unfold SybilSimulation.can_participate_in_genesis. rewrite Hb.
      reflexivity. }
    split; [|rewrite Hcan; apply (geb_true _ SybilSimulation.MIN_REP_FOR_GENESIS)].
    unfold SybilSimulation.calculate_position_limit. rewrite Hb, Hcan.
    clear Hcan.
    destruct (geb (SybilSimulation.reputation user)
                  SybilSimulation.MIN_REP_FOR_GENESIS) eqn:E.
    + cbn [negb]. cbv zeta. split; [reflexivity|]. intros _.
      apply (proj1 (geb_true _ SybilSimulation.MIN_REP_FOR_GENESIS)) in E.
      unfold SybilSimulation.MIN_REP_FOR_GENESIS in *.
      apply Q.min_glb_lt.
      * assert (Hf : 1 <= Qmin (SybilSimulation.reputation user / 1000) 10).
        { apply Q.min_glb; [|discriminate].
          apply Qle_shift_div_l; [reflexivity | lra]. }
        set (f := Qmin (SybilSimulation.reputation user / 1000) 10) in *.
        setoid_replace (1000 * 0.20 * f / 10) with (20 * f) by field. lra.
      * apply Qmult_lt_0_compat; [exact HL | reflexivity].
    + cbn [negb]. split; [|discriminate].
      intro H. exfalso. exact (Qlt_irrefl _ H).
  - intro Hout. unfold SybilSimulation.can_participate_in_genesis.
    assert (Hb : (SybilSimulation.blocks_since_creation self
                  <? SybilSimulation.GENESIS_PHASE_BLOCKS)%Z = false)
      by (apply Z.ltb_ge; exact Hout).
    rewrite Hb. reflexivity.
Qed.

Lemma genesis_gate_witness :
  0 < SybilSimulation.calculate_position_limit
        (SybilSimulation.mkMarket 5000 0 50)
        (SybilSimulation.mkUser String.EmptyString 5 2500 0.50 1)
  /\ SybilSimulation.can_participate_in_genesis
       (SybilSimulation.mkMarket 5000 0 150)
       (SybilSimulation.mkUser String.EmptyString 5 100 0.50 1) = true.
Proof.
  split.
  - assert (HL : 0 < SybilSimulation.total_liquidity
                       (SybilSimulation.mkMarket 5000 0 50)) by reflexivity.
    assert (Hg : (SybilSimulation.blocks_since_creation
                    (SybilSimulation.mkMarket 5000 0 50) < 100)%Z)
      by reflexivity.
    destruct (proj1 (genesis_gate (SybilSimulation.mkMarket 5000 0 50)
                (SybilSimulation.mkUser String.EmptyString 5 2500 0.50 1) HL)
                Hg) as [Hpos _].
    apply (proj2 Hpos). reflexivity.
  - apply (proj2 (genesis_gate (SybilSimulation.mkMarket 5000 0 150)
             (SybilSimulation.mkUser String.EmptyString 5 100 0.50 1)
             eq_refl)).
    discriminate.
Defined.
